(** * zone-nameservers: the iterative delegation walker of [main.go]

    A shallow embedding of [localQuery], [getNsRecords] and [main], followed
    by the properties of the walk.  The program talks to the network, draws
    random numbers and prints; these effects are threaded through an explicit
    state, and the outside world (what the wire answers, what the random
    source yields, the command line, the resolver configuration) is a record
    of oracles the run is parameterised by. *)

From Stdlib Require Import List String Ascii Bool Arith Lia ZArith.
From Stdlib Require Import Permutation Sorted.
Import ListNotations.
Local Open Scope string_scope.
Local Open Scope list_scope.

Set Implicit Arguments.

(** ** The parts of the imported DNS library the program uses *)

Module dns.

Definition TypeNS : Z := 2.
Definition ClassINET : Z := 1.
Definition RcodeSuccess : Z := 0.
Definition RcodeNameError : Z := 3.

Record Question : Type := mkQuestion
  { Name : string; Qtype : Z; Qclass : Z }.

Record RR_Header : Type := mkHeader
  { Hdr_Name : string; Rrtype : Z }.

(** A resource record is a [*dns.NS], carrying the target host name (its field [Ns]),
    or a record of some other concrete type. *)
Inductive RR : Type :=
| NS (Hdr : RR_Header) (target : string)
| OtherRR (Hdr : RR_Header) (rdata : string).

Record Msg : Type := mkMsg
  { RecursionDesired : bool;
    Rcode : Z;
    Question_ : list Question;
    Answer : list RR;
    Ns : list RR;        (* the authority section *)
    Extra : list RR }.

Record ClientConfig : Type := mkClientConfig
  { Servers : list string }.

(** Modelled from the spec: [dns.IsFqdn] of the imported library, which is
    not part of the repository.  A name is fully qualified when it is
    terminated by the root label, that is, when its last character is the
    separator. *)
Fixpoint IsFqdn (s : string) : bool :=
  match s with
  | EmptyString => false
  | String c EmptyString => Ascii.eqb c "."
  | String _ rest => IsFqdn rest
  end.

(** Modelled from the spec: [dns.Fqdn] of the imported library; the name in
    fully-qualified form, the separator added when it is not there. *)
Definition Fqdn (s : string) : string :=
  if IsFqdn s then s else (s ++ ".")%string.

(** The name without the separator that terminates it. *)
Fixpoint trimDot (s : string) : string :=
  match s with
  | EmptyString => EmptyString
  | String c EmptyString => if Ascii.eqb c "." then EmptyString else s
  | String c rest => String c (trimDot rest)
  end.

(** The pieces of [s] between separators. *)
Fixpoint splitLabels (s : string) : list string :=
  match s with
  | EmptyString => [EmptyString]
  | String c rest =>
      if Ascii.eqb c "." then EmptyString :: splitLabels rest
      else match splitLabels rest with
           | l :: ls => String c l :: ls
           | [] => [String c EmptyString]
           end
  end.

(** Modelled from the spec: [dns.SplitDomainName] of the imported library;
    the ordered sequence of labels of a name, with or without the
    terminating separator ("www.example.com." gives www, example, com).
    The empty name and the root have no labels.  Escaped separators of the
    presentation format are outside this model. *)
Definition SplitDomainName (s : string) : list string :=
  if (s =? "") || (s =? ".") then [] else splitLabels (trimDot s).

(** Modelled from the spec: [Msg.SetQuestion] of the imported library; the
    message becomes a single-question, recursion-desired query. *)
Definition SetQuestion (m : Msg) (z : string) (t : Z) : Msg :=
  {| RecursionDesired := true;
     Rcode := Rcode m;
     Question_ := [mkQuestion z t ClassINET];
     Answer := Answer m;
     Ns := Ns m;
     Extra := Extra m |}.

End dns.

(** ** Errors, the outside world and the program state *)

(** The read timeout of the client, a [time.Duration] in nanoseconds.  An
    exchange that runs into it comes back as a transport error. *)
Definition DefaultTimeout : Z := 5 * 1000000000.

(** A Go [error] is represented by its message; [None] is the nil error. *)
Definition error : Type := string.

Record World : Type := mkWorld
  { (** [os.Args[0]] and the arguments after it *)
    Arg0 : string;
    ArgRest : list string;
    (** what [dns.ClientConfigFromFile("/etc/resolv.conf")] returns *)
    resolv_conf : option dns.ClientConfig * option error;
    (** what the [n]-th [localc.Exchange] of the run returns for the message
        sent and the address it is sent to: a response (or nil) and an error
        (or nil); a timeout after [DefaultTimeout] is one of the errors *)
    Exchange : nat -> dns.Msg -> string -> option dns.Msg * option error;
    (** the raw value behind the [n]-th draw of the process-wide random
        source *)
    random : nat -> nat }.

Record State : Type := mkState
  { localm : dns.Msg;                  (* the shared question message *)
    wire : list (dns.Msg * string);    (* exchanges so far: message, address *)
    draws : nat;                       (* random draws so far *)
    stdout : list string }.            (* what was printed so far *)

(** How a computation ends: with a value, by [log.Fatalf]/[log.Fatalln]
    (message logged, process exits) or by a run-time panic. *)
Inductive Res (A : Type) : Type :=
| Ret (a : A)
| Fatal (msg : string)
| Panic (msg : string).

Arguments Fatal {A} msg.
Arguments Panic {A} msg.

Definition M (A : Type) : Type := State -> Res A * State.

Definition ret {A} (a : A) : M A := fun s => (Ret a, s).

Definition bind {A B} (m : M A) (k : A -> M B) : M B :=
  fun s =>
    match m s with
    | (Ret a, s') => k a s'
    | (Fatal msg, s') => (Fatal msg, s')
    | (Panic msg, s') => (Panic msg, s')
    end.

Notation "x <- m ;; k" := (bind m (fun x => k))
  (at level 61, m at next level, right associativity).
Notation "' pat <- m ;; k" := (bind m (fun x => match x with pat => k end))
  (at level 61, pat pattern, m at next level, right associativity).
Notation "m ;;; k" := (bind m (fun _ => k))
  (at level 61, right associativity).

Definition fatal {A} (msg : string) : M A := fun s => (Fatal msg, s).
Definition panic {A} (msg : string) : M A := fun s => (Panic msg, s).

Definition nl : string := String (ascii_of_nat 10) EmptyString.

Definition Print (text : string) : M unit :=
  fun s => (Ret tt, {| localm := localm s; wire := wire s; draws := draws s;
                       stdout := stdout s ++ [text] |}).

Definition Println (text : string) : M unit := Print (text ++ nl)%string.

Fixpoint forEach {A} (l : list A) (body : A -> M unit) : M unit :=
  match l with
  | [] => ret tt
  | x :: rest => body x ;;; forEach rest body
  end.

(** [rand.Intn(n)] for [n > 0]: a value in [0, n), here the raw value of the
    draw reduced modulo [n].  (For [n <= 0] Go panics; the program only calls
    it on the length of a non-empty slice.) *)
Definition Intn (w : World) (n : nat) : M nat :=
  fun s =>
    match n with
    | O => (Panic "invalid argument to Intn", s)
    | S _ => (Ret (random w (draws s) mod n),
              {| localm := localm s; wire := wire s; draws := S (draws s);
                 stdout := stdout s |})
    end.

(** [sort.Strings]: the slice rearranged in increasing byte-wise order. *)
Fixpoint insertSorted (x : string) (l : list string) : list string :=
  match l with
  | [] => [x]
  | y :: rest => if String.leb x y then x :: l else y :: insertSorted x rest
  end.

Fixpoint sortStrings (l : list string) : list string :=
  match l with
  | [] => []
  | x :: rest => insertSorted x (sortStrings rest)
  end.

(** ** [localQuery] *)

Definition errNoNameServer : error := "No name server to answer the question".

Definition rcodeAccepted (r : dns.Msg) : bool :=
  (dns.Rcode r =? dns.RcodeNameError)%Z || (dns.Rcode r =? dns.RcodeSuccess)%Z.

Definition localQuery (w : World) (qname : string) (qtype : Z) (server : string)
  : M (option dns.Msg * option error) :=
  fun s =>
    let m := dns.SetQuestion (localm s) qname qtype in
    let addr := (server ++ ":53")%string in
    let '(r, err) := Exchange w (List.length (wire s)) m addr in
    let s' := {| localm := m; wire := wire s ++ [(m, addr)];
                 draws := draws s; stdout := stdout s |} in
    match err with
    | Some e => (Ret (None, Some e), s')
    | None =>
        match r with
        | None => (Ret (r, err), s')
        | Some resp =>
            if rcodeAccepted resp then (Ret (r, err), s')
            else (Ret (None, Some errNoNameServer), s')
        end
    end.

(** ** [getNsRecords] *)

(** The loop over a section: the target of every [*dns.NS] record appended to
    [nameservers], in the order of the section. *)
Fixpoint appendNs (nameservers : list string) (section : list dns.RR)
  : list string :=
  match section with
  | [] => nameservers
  | dns.NS _ nameserver :: rest => appendNs (nameservers ++ [nameserver]) rest
  | dns.OtherRR _ _ :: rest => appendNs nameservers rest
  end.

Definition getNsRecords (w : World) (zone : string) (server : string)
  : M (list string * string * option error) :=
  let zone := dns.Fqdn zone in
  '(r, err) <- localQuery w zone dns.TypeNS server ;;
  match err, r with
  | Some _, _ | None, None => ret ([], "", err)
  | None, Some r =>
      let nameservers := appendNs [] (dns.Answer r) in
      let nameservers :=
        match nameservers with
        | [] => appendNs nameservers (dns.Ns r)
        | _ :: _ => nameservers
        end in
      match nameservers with
      | [] => ret ([], "", Some ("No nameservers found for " ++ zone)%string)
      | _ :: _ =>
          i <- Intn w (List.length nameservers) ;;
          let randomNs := nth i nameservers "" in
          ret (sortStrings nameservers, randomNs, None)
      end
  end.

(** ** [main] *)

(** An error value under the [%s] verb (and under [log.Fatalln]). *)
Definition fmtError (err : option error) : string :=
  match err with
  | Some e => e
  | None => "%!s(<nil>)"
  end.

Definition arrowMark : string := " ➡️ ".
Definition dashMark : string := " - ".

(** The state of the process when [main] starts. *)
Definition initial : State :=
  {| localm := dns.mkMsg false 0 [] [] [] [];
     wire := [];
     draws := 0;
     stdout := [] |}.

Definition setLocalm (m : dns.Msg) : M unit :=
  fun s => (Ret tt, {| localm := m; wire := wire s; draws := draws s;
                       stdout := stdout s |}).

(** The zone name of the next level: [element] prepended to the zone
    assembled so far. *)
Definition assemble (element assembledDomain : string) : string :=
  if assembledDomain =? "." then (element ++ ".")%string
  else (element ++ "." ++ assembledDomain)%string.

(** The reverse loop of [main].  [pieces] holds what is left of
    [domainPieces], last piece first: its head is
    [domainPieces[len(domainPieces)-1]] and its tail the slice cut by one. *)
Fixpoint walk (w : World) (domain : string) (pieces : list string)
    (assembledDomain nextNs : string) : M unit :=
  match pieces with
  | [] => ret tt
  | element :: pieces =>
      Print nl ;;;
      let assembledDomain := assemble element assembledDomain in
      Println ("Finding nameservers for zone '" ++ assembledDomain
               ++ "' using parent nameserver '" ++ nextNs ++ "'")%string ;;;
      '(ns, nextNs, err) <- getNsRecords w assembledDomain nextNs ;;
      match err with
      | Some _ => fatal ("Query failed:  " ++ fmtError err ++ nl)%string
      | None =>
          forEach ns (fun nameserver =>
            if (nameserver =? nextNs)
               && negb (dns.Fqdn domain =? assembledDomain)
            then Println (arrowMark ++ nameserver)%string
            else Println (dashMark ++ nameserver)%string) ;;;
          walk w domain pieces assembledDomain nextNs
      end
  end.

Definition main (w : World) : M unit :=
  match ArgRest w with
  | [domain] =>
      match resolv_conf w with
      | (Some conf, None) =>
          setLocalm (dns.mkMsg true 0 [dns.mkQuestion "" 0 0] [] [] []) ;;;
          Println "Retrieving list of root nameservers:" ;;;
          match dns.Servers conf with
          | [] => panic "index out of range [0] with length 0"
          | server0 :: _ =>
              '(rootNameservers, nextNs, err) <- getNsRecords w "." server0 ;;
              match err with
              | Some _ => fatal ("Query failed: " ++ fmtError err)%string
              | None =>
                  forEach rootNameservers (fun nameserver =>
                    if nameserver =? nextNs
                    then Println (arrowMark ++ nameserver)%string
                    else Println (dashMark ++ nameserver)%string) ;;;
                  let domainPieces := dns.SplitDomainName domain in
                  walk w domain (rev domainPieces) "." nextNs
              end
          end
      | (_, err) =>
          fatal ("Cannot initialize the local resolver: "
                 ++ fmtError err ++ nl)%string
      end
  | _ => fatal (Arg0 w ++ " ZONE" ++ nl)%string
  end.

(** ** What a run shows *)

(** The name asked for in an exchange. *)
Definition qname (e : dns.Msg * string) : string :=
  match dns.Question_ (fst e) with
  | q :: _ => dns.Name q
  | [] => ""
  end.

(** The zone names queried so far, in the order of the queries. *)
Definition queried (s : State) : list string := map qname (wire s).

(** The [k] last elements of a list. *)
Definition lastn {A} (k : nat) (l : list A) : list A :=
  skipn (List.length l - k) l.

(** The labels written out, each followed by the separator. *)
Fixpoint dotted (labels : list string) : string :=
  match labels with
  | [] => ""
  | l :: rest => (l ++ "." ++ dotted rest)%string
  end.

(** The zone made of the given labels; the root when there is none. *)
Definition zoneName (labels : list string) : string :=
  match labels with
  | [] => "."
  | _ :: _ => dotted labels
  end.

(** The zones from the root down to the full name: the [k]-th is made of the
    [k] last labels. *)
Definition zoneSequence (labels : list string) : list string :=
  map (fun k => zoneName (lastn k labels)) (seq 0 (S (List.length labels))).

(** The targets of the NS-type records of a section, in its order. *)
Fixpoint nsTargets (section : list dns.RR) : list string :=
  match section with
  | [] => []
  | dns.NS _ target :: rest => target :: nsTargets rest
  | dns.OtherRR _ _ :: rest => nsTargets rest
  end.

(** The state after an exchange: the question is set in the shared message
    and the exchange is on the wire. *)
Definition sent (s : State) (q : string) (t : Z) (server : string) : State :=
  {| localm := dns.SetQuestion (localm s) q t;
     wire := wire s ++ [(dns.SetQuestion (localm s) q t, (server ++ ":53")%string)];
     draws := draws s;
     stdout := stdout s |}.

(** What the next exchange of the run returns for a question. *)
Definition nextExchange (w : World) (s : State) (q : string) (t : Z)
    (server : string) : option dns.Msg * option error :=
  Exchange w (List.length (wire s)) (dns.SetQuestion (localm s) q t)
    (server ++ ":53")%string.

(** A world in which a query step cannot fail: no transport error, and a
    response, when there is one, has an accepted status and carries an NS
    record in its answer or authority section. *)
Definition answered (x : option dns.Msg * option error) : Prop :=
  snd x = None /\
  forall r, fst x = Some r ->
    rcodeAccepted r = true /\
    (nsTargets (dns.Answer r) <> [] \/ nsTargets (dns.Ns r) <> []).



(** Sample worlds. *)
Definition rrNS (owner target : string) : dns.RR :=
  dns.NS (dns.mkHeader owner dns.TypeNS) target.

Definition rrA (owner addr : string) : dns.RR :=
  dns.OtherRR (dns.mkHeader owner 1) addr.

Definition reply (rcode : Z) (answer authority : list dns.RR) : dns.Msg :=
  dns.mkMsg true rcode [] answer authority [].

Definition sampleWorld (domain : string)
    (net : nat -> dns.Msg -> string -> option dns.Msg * option error)
    (rnd : nat -> nat) : World :=
  {| Arg0 := "zone-nameservers";
     ArgRest := [domain];
     resolv_conf := (Some (dns.mkClientConfig ["192.0.2.53"]), None);
     Exchange := net;
     random := rnd |}.

(** Every query times out. *)
Definition netTimeout : nat -> dns.Msg -> string -> option dns.Msg * option error :=
  fun _ _ _ => (None, Some "i/o timeout").

(** Every query is answered with two NS records in the authority section. *)
Definition netReferral : nat -> dns.Msg -> string -> option dns.Msg * option error :=
  fun _ m _ =>
    let z := match dns.Question_ m with q :: _ => dns.Name q | [] => "" end in
    (Some (reply dns.RcodeSuccess []
             [rrNS z ("b.ns." ++ z)%string; rrNS z ("a.ns." ++ z)%string]),
     None).

(** Every query gets the same response. *)
Definition netConst (r : option dns.Msg) (err : option error)
  : nat -> dns.Msg -> string -> option dns.Msg * option error :=
  fun _ _ _ => (r, err).


(** The order [sort.Strings] sorts by. *)
Definition lexLe (a b : string) : Prop := String.leb a b = true.

(** The nameservers a response yields, in the order [getNsRecords] collects
    them: those of the answer section, or else those of the authority
    section. *)
Definition collected (r : dns.Msg) : list string :=
  match nsTargets (dns.Answer r) with
  | [] => nsTargets (dns.Ns r)
  | ns => ns
  end.

(** The state after a random draw. *)
Definition drawn (s : State) : State :=
  {| localm := localm s; wire := wire s; draws := S (draws s);
     stdout := stdout s |}.

(** A response with two NS records in the answer section, out of order, and
    one in the authority section. *)
Definition replyAnswer : dns.Msg :=
  reply dns.RcodeSuccess
    [rrNS "." "b.root."; rrA "b.root." "198.51.100.2"; rrNS "." "a.root."]
    [rrNS "." "x.root."].

(** A referral: no NS record in the answer section, two in the authority
    section. *)
Definition replyReferral : dns.Msg :=
  reply dns.RcodeNameError
    [rrA "com." "198.51.100.7"]
    [rrNS "com." "b.gtld."; rrNS "com." "a.gtld."].

(** A response without any NS record. *)
Definition replyEmpty : dns.Msg :=
  reply dns.RcodeSuccess [rrA "com." "198.51.100.7"] [].

(** A response whose status is a server failure. *)
Definition replyServFail : dns.Msg := reply 2 [] [].

(** The state with more printed. *)
Definition addOut (s : State) (out : list string) : State :=
  {| localm := localm s; wire := wire s; draws := draws s;
     stdout := stdout s ++ out |}.

(** A computation that only prints. *)
Definition printsOnly (m : M unit) : Prop :=
  forall s, exists out, m s = (Ret tt, addOut s out).

(** The zone names the loop of [main] assembles from [assembledDomain] for
    the pieces it is still to consume. *)
Fixpoint assembled (assembledDomain : string) (pieces : list string)
  : list string :=
  match pieces with
  | [] => []
  | element :: pieces =>
      assemble element assembledDomain
      :: assembled (assemble element assembledDomain) pieces
  end.

(** The world [w] run on another target domain. *)
Definition withDomain (w : World) (domain : string) : World :=
  {| Arg0 := Arg0 w;
     ArgRest := [domain];
     resolv_conf := resolv_conf w;
     Exchange := Exchange w;
     random := random w |}.

(** The state in which [main] sends the query for the root zone. *)
Definition rootState : State :=
  addOut
    {| localm := dns.mkMsg true 0 [dns.mkQuestion "" 0 0] [] [] [];
       wire := []; draws := 0; stdout := [] |}
    [("Retrieving list of root nameservers:" ++ nl)%string].

(** The resolver configuration names a first server. *)
Definition configured (w : World) : Prop :=
  exists conf server0 others,
    resolv_conf w = (Some conf, None) /\ dns.Servers conf = server0 :: others.

(** The header line a level of the loop prints before its query. *)
Definition header (zone nextNs : string) : string :=
  (("Finding nameservers for zone '" ++ zone
    ++ "' using parent nameserver '" ++ nextNs ++ "'") ++ nl)%string.

(** The state in which a level of the loop sends its query: the blank line
    and the header are printed. *)
Definition turnState (s : State) (zone nextNs : string) : State :=
  addOut (addOut s [nl]) [header zone nextNs].

(** A line of a listing of nameservers, with the arrow or with the dash. *)
Definition listingLine (marked : bool) (nameserver : string) : string :=
  (((if marked then arrowMark else dashMark) ++ nameserver) ++ nl)%string.

(** An exchange as the program sends it: one question, of type NS and class
    INET, for a fully-qualified name, recursion desired, to port 53 of a
    server. *)
Definition wellFormedQuery (e : dns.Msg * string) : Prop :=
  exists q server,
    dns.Question_ (fst e) = [dns.mkQuestion q dns.TypeNS dns.ClassINET]
    /\ dns.IsFqdn q = true
    /\ dns.RecursionDesired (fst e) = true
    /\ snd e = (server ++ ":53")%string.

(** Whether [getNsRecords] draws a random number after an exchange that
    returned [x]: it does when the response is accepted and nameservers are
    collected from it. *)
Definition yields (x : option dns.Msg * option error) : bool :=
  match x with
  | (Some r, None) =>
      rcodeAccepted r && match collected r with [] => false | _ :: _ => true end
  | _ => false
  end.

(** The number of random draws made for the exchanges [entries], the first
    of which is the [i]-th of the run. *)
Fixpoint drawsOf (w : World) (i : nat) (entries : list (dns.Msg * string))
  : nat :=
  match entries with
  | [] => 0
  | e :: rest =>
      (if yields (Exchange w i (fst e) (snd e)) then 1 else 0)
      + drawsOf w (S i) rest
  end.

(** The server name [getNsRecords] hands over after an exchange that
    returned [x], when [j] random numbers were drawn before: the nameserver
    at the drawn index of the list collected from an accepted response, the
    empty name after a nil response; none after an error. *)
Definition selectedAt (w : World) (j : nat)
    (x : option dns.Msg * option error) (sel : string) : Prop :=
  match x with
  | (Some r, None) =>
      rcodeAccepted r = true
      /\ collected r <> []
      /\ sel = nth (random w j mod List.length (collected r)) (collected r) ""
  | (None, None) => sel = ""
  | (_, Some _) => False
  end.

(** Every exchange after the first goes to the server selected, with the
    next unused random draw, from what the exchange before it returned. *)
Definition followed (w : World) (entries : list (dns.Msg * string)) : Prop :=
  forall i e1 e2,
    nth_error entries i = Some e1 ->
    nth_error entries (S i) = Some e2 ->
    exists sel,
      snd e2 = (sel ++ ":53")%string
      /\ selectedAt w (drawsOf w 0 (firstn i entries))
           (Exchange w i (fst e1) (snd e1)) sel.

(** A world given by its command line and resolver configuration, with a
    network that answers every query by a referral. *)
Definition bareWorld (args : list string)
    (conf : option dns.ClientConfig * option error) : World :=
  {| Arg0 := "zone-nameservers";
     ArgRest := args;
     resolv_conf := conf;
     Exchange := netReferral;
     random := fun n => n |}.

(** * Properties *)

Unset Implicit Arguments.

(** ** Strings and names *)

Lemma append_empty_r (s : string) : (s ++ "")%string = s.
Proof. induction s as [|c s IH]; simpl; [reflexivity | now rewrite IH]. Qed.

Lemma append_assoc (a b c : string) :
  ((a ++ b) ++ c)%string = (a ++ (b ++ c))%string.
Proof. induction a as [|x a IH]; simpl; [reflexivity | now rewrite IH]. Qed.

Lemma IsFqdn_append (a b : string) :
  b <> "" -> dns.IsFqdn (a ++ b) = dns.IsFqdn b.
Proof.
  intros Hb. induction a as [|c a IH]; simpl; [reflexivity|].
  rewrite IH. destruct (a ++ b)%string eqn:E; [|reflexivity].
  destruct a; simpl in E; [contradiction | discriminate].
Qed.

Lemma IsFqdn_append_dot (a : string) : dns.IsFqdn (a ++ ".") = true.
Proof. rewrite IsFqdn_append; [reflexivity | discriminate]. Qed.

Lemma Fqdn_fqdn (s : string) : dns.IsFqdn s = true -> dns.Fqdn s = s.
Proof. unfold dns.Fqdn. now intros ->. Qed.

Lemma Fqdn_IsFqdn (s : string) : dns.IsFqdn (dns.Fqdn s) = true.
Proof.
  unfold dns.Fqdn. destruct (dns.IsFqdn s) eqn:E; [exact E|].
  apply IsFqdn_append_dot.
Qed.

Lemma trimDot_append_dot (x : string) : dns.trimDot (x ++ ".") = x.
Proof.
  induction x as [|c x IH]; [reflexivity|].
  simpl. rewrite IH. destruct (x ++ ".")%string eqn:E; [|reflexivity].
  destruct x; discriminate.
Qed.

Lemma trimDot_not_fqdn (x : string) : dns.IsFqdn x = false -> dns.trimDot x = x.
Proof.
  induction x as [|c x IH]; [reflexivity|].
  simpl. destruct x as [|d x].
  - now intros ->.
  - intros H. now rewrite (IH H).
Qed.

Lemma Fqdn_trimDot (s : string) : dns.Fqdn s = (dns.trimDot s ++ ".")%string.
Proof.
  unfold dns.Fqdn. destruct (dns.IsFqdn s) eqn:E.
  - induction s as [|c s IH]; [discriminate|].
    simpl in *. destruct s as [|d s].
    + destruct (Ascii.eqb_spec c "."); [now subst | discriminate].
    + simpl. f_equal. now apply IH.
  - now rewrite trimDot_not_fqdn.
Qed.

Lemma Fqdn_append_dot (x : string) :
  dns.IsFqdn x = false -> dns.Fqdn (x ++ ".") = dns.Fqdn x.
Proof.
  intros H. rewrite (Fqdn_fqdn _ (IsFqdn_append_dot x)).
  unfold dns.Fqdn. now rewrite H.
Qed.

Lemma SplitDomainName_append_dot (x : string) :
  dns.IsFqdn x = false ->
  dns.SplitDomainName (x ++ ".") = dns.SplitDomainName x.
Proof.
  intros H. unfold dns.SplitDomainName.
  destruct x as [|c x]; [reflexivity|].
  rewrite trimDot_append_dot, (trimDot_not_fqdn _ H).
  assert (E1 : (String c x =? ".")%string = false).
  { apply String.eqb_neq. intros E. rewrite E in H. discriminate. }
  assert (E2 : ((String c x ++ ".") =? ".")%string = false).
  { apply String.eqb_neq. simpl. intros E. inversion E as [[Ec Ex]].
    destruct x; discriminate. }
  rewrite E1, E2. reflexivity.
Qed.

Lemma splitLabels_nonempty (s : string) : dns.splitLabels s <> [].
Proof.
  destruct s as [|c s]; simpl; [discriminate|].
  destruct (Ascii.eqb c "."); [discriminate|].
  destruct (dns.splitLabels s); discriminate.
Qed.

Lemma dotted_splitLabels (x : string) :
  dotted (dns.splitLabels x) = (x ++ ".")%string.
Proof.
  induction x as [|c x IH]; [reflexivity|].
  simpl. destruct (Ascii.eqb_spec c ".") as [->|Hc].
  - simpl. now rewrite IH.
  - destruct (dns.splitLabels x) as [|l ls] eqn:E.
    + now destruct (splitLabels_nonempty x).
    + simpl in *. now rewrite IH.
Qed.

Lemma zoneName_SplitDomainName (d : string) :
  zoneName (dns.SplitDomainName d) = dns.Fqdn d.
Proof.
  unfold dns.SplitDomainName.
  destruct (String.eqb_spec d "") as [->|H1]; [reflexivity|].
  destruct (String.eqb_spec d ".") as [->|H2]; [reflexivity|].
  simpl. unfold zoneName.
  destruct (dns.splitLabels (dns.trimDot d)) as [|l ls] eqn:E.
  - now destruct (splitLabels_nonempty (dns.trimDot d)).
  - rewrite <- E, dotted_splitLabels. symmetry. apply Fqdn_trimDot.
Qed.

(** ** [sort.Strings] *)

Lemma insertSorted_Permutation (x : string) (l : list string) :
  Permutation (x :: l) (insertSorted x l).
Proof.
  induction l as [|y l IH]; simpl; [apply Permutation_refl|].
  destruct (String.leb x y); [apply Permutation_refl|].
  eapply perm_trans; [apply perm_swap | apply perm_skip, IH].
Qed.

Lemma sortStrings_Permutation (l : list string) :
  Permutation l (sortStrings l).
Proof.
  induction l as [|x l IH]; simpl; [constructor|].
  eapply perm_trans; [apply perm_skip, IH | apply insertSorted_Permutation].
Qed.

Lemma insertSorted_Sorted (x : string) (l : list string) :
  Sorted lexLe l -> Sorted lexLe (insertSorted x l).
Proof.
  induction 1 as [|y l Hl IH Hy]; simpl.
  - repeat constructor.
  - destruct (String.leb x y) eqn:E.
    + constructor; [constructor; assumption | constructor; exact E].
    + constructor; [exact IH|].
      assert (Hyx : lexLe y x).
      { destruct (String.leb_total x y) as [H|H]; [congruence | exact H]. }
      destruct Hy as [|z l' Hz]; simpl.
      * constructor; exact Hyx.
      * destruct (String.leb x z); constructor; assumption.
Qed.

Lemma sortStrings_Sorted (l : list string) : Sorted lexLe (sortStrings l).
Proof.
  induction l as [|x l IH]; simpl; [constructor | now apply insertSorted_Sorted].
Qed.

Lemma sortStrings_length (l : list string) :
  List.length (sortStrings l) = List.length l.
Proof. symmetry. apply Permutation_length, sortStrings_Permutation. Qed.

Lemma sortStrings_In (x : string) (l : list string) :
  In x l <-> In x (sortStrings l).
Proof.
  split; apply Permutation_in;
    [|apply Permutation_sym]; apply sortStrings_Permutation.
Qed.

(** ** One query step *)

Lemma appendNs_nsTargets (section : list dns.RR) (acc : list string) :
  appendNs acc section = acc ++ nsTargets section.
Proof.
  revert acc. induction section as [|[h t|h d] rest IH]; intros acc; simpl.
  - now rewrite app_nil_r.
  - rewrite IH, <- app_assoc. reflexivity.
  - apply IH.
Qed.

Lemma localQuery_eq (w : World) (q : string) (t : Z) (server : string)
    (s : State) :
  localQuery w q t server s =
  (Ret (match nextExchange w s q t server with
        | (_, Some e) => (None, Some e)
        | (None, None) => (None, None)
        | (Some r, None) =>
            if rcodeAccepted r then (Some r, None)
            else (None, Some errNoNameServer)
        end),
   sent s q t server).
Proof.
  unfold localQuery, nextExchange, sent.
  destruct (Exchange w _ _ _) as [[r|] [e|]]; try reflexivity.
  destruct (rcodeAccepted r); reflexivity.
Qed.

Lemma getNsRecords_eq (w : World) (zone server : string) (s : State) :
  getNsRecords w zone server s =
  let z := dns.Fqdn zone in
  let s1 := sent s z dns.TypeNS server in
  match fst (localQuery w z dns.TypeNS server s) with
  | Ret (_, Some e) => (Ret ([], "", Some e), s1)
  | Ret (None, None) => (Ret ([], "", None), s1)
  | Ret (Some r, None) =>
      match collected r with
      | [] => (Ret ([], "", Some ("No nameservers found for " ++ z)%string), s1)
      | ns =>
          (Ret (sortStrings ns,
                nth (random w (draws s) mod List.length ns) ns "", None),
           drawn s1)
      end
  | Fatal msg => (Fatal msg, s1)
  | Panic msg => (Panic msg, s1)
  end.
Proof.
  unfold getNsRecords, bind. rewrite localQuery_eq. cbn [fst].
  destruct (nextExchange w s _ _ _) as [[r|] [e|]]; try reflexivity.
  destruct (rcodeAccepted r); [|reflexivity].
  unfold collected. rewrite !appendNs_nsTargets. cbn [app].
  destruct (nsTargets (dns.Answer r)) as [|a l].
  - destruct (nsTargets (dns.Ns r)); reflexivity.
  - reflexivity.
Qed.

Lemma getNsRecords_wire (w : World) (zone server : string) (s : State) :
  wire (snd (getNsRecords w zone server s)) =
  wire s ++ [(dns.SetQuestion (localm s) (dns.Fqdn zone) dns.TypeNS,
              (server ++ ":53")%string)].
Proof.
  rewrite getNsRecords_eq. cbv zeta. rewrite localQuery_eq. cbn [fst].
  destruct (nextExchange w s _ _ _) as [[r|] [e|]]; try reflexivity.
  destruct (rcodeAccepted r); [|reflexivity].
  destruct (collected r); reflexivity.
Qed.

(** ** The query executor *)

(** C5 (as amended): [localQuery] returns a response without error exactly
    when the exchange returned that response without error and its status is
    name-error or success; a response with any other status yields the error
    "No name server to answer the question" and no response; a transport
    error is returned unchanged, without a response; a nil response of an
    exchange without error is passed on as it is. *)
Theorem localQuery_outcome (w : World) (q : string) (t : Z) (server : string)
    (s : State) :
  (forall resp,
      fst (localQuery w q t server s) = Ret (Some resp, None) <->
      nextExchange w s q t server = (Some resp, None) /\
      (dns.Rcode resp = dns.RcodeNameError \/ dns.Rcode resp = dns.RcodeSuccess))
  /\ (forall resp,
      nextExchange w s q t server = (Some resp, None) ->
      dns.Rcode resp <> dns.RcodeNameError ->
      dns.Rcode resp <> dns.RcodeSuccess ->
      fst (localQuery w q t server s) =
      Ret (None, Some "No name server to answer the question"))
  /\ (forall r e,
      nextExchange w s q t server = (r, Some e) ->
      fst (localQuery w q t server s) = Ret (None, Some e))
  /\ (nextExchange w s q t server = (None, None) ->
      fst (localQuery w q t server s) = Ret (None, None)).
Proof.
  rewrite localQuery_eq. cbn [fst].
  assert (Hacc : forall r, rcodeAccepted r = true <->
            dns.Rcode r = dns.RcodeNameError \/ dns.Rcode r = dns.RcodeSuccess).
  { intros r. unfold rcodeAccepted.
    rewrite Bool.orb_true_iff, !Z.eqb_eq. reflexivity. }
  destruct (nextExchange w s q t server) as [[r|] [e|]];
    (split; [intros resp; split; [intros H | intros [H1 H2]]
            |split; [intros resp H1 H2 H3
                    |split; [intros r' e' H | intros H]]]);
    try congruence.
  - destruct (rcodeAccepted r) eqn:E; [|discriminate].
    split; [congruence|]. apply Hacc. congruence.
  - inversion H1; subst resp. apply Hacc in H2. now rewrite H2.
  - inversion H1; subst resp.
    destruct (rcodeAccepted r) eqn:E; [|reflexivity].
    apply Hacc in E. tauto.
Qed.

(** C5, as stated, fails: the error of a response with another status (here
    a server failure) is not "no nameserver answered the question". *)
Lemma localQuery_error_text :
  nextExchange (sampleWorld "com" (netConst (Some replyServFail) None) (fun n => n))
    initial "." dns.TypeNS "192.0.2.53" = (Some replyServFail, None)
  /\ dns.Rcode replyServFail <> dns.RcodeNameError
  /\ dns.Rcode replyServFail <> dns.RcodeSuccess
  /\ fst (localQuery
        (sampleWorld "com" (netConst (Some replyServFail) None) (fun n => n))
        "." dns.TypeNS "192.0.2.53" initial)
     <> Ret (None, Some "no nameserver answered the question").
Proof. repeat split; discriminate. Qed.

(** A name-error response is returned as it is; a timeout comes back as the
    error of the transport. *)
Example localQuery_samples :
  fst (localQuery
         (sampleWorld "com" (netConst (Some replyReferral) None) (fun n => n))
         "com." dns.TypeNS "b.root." initial) = Ret (Some replyReferral, None)
  /\ fst (localQuery (sampleWorld "com" netTimeout (fun n => n))
            "com." dns.TypeNS "b.root." initial) = Ret (None, Some "i/o timeout").
Proof. split; reflexivity. Qed.

(** ** The NS extractor and the selector *)

Lemma collected_answer (r : dns.Msg) :
  nsTargets (dns.Answer r) <> [] -> collected r = nsTargets (dns.Answer r).
Proof. unfold collected. destruct (nsTargets (dns.Answer r)); congruence. Qed.

Lemma collected_authority (r : dns.Msg) :
  nsTargets (dns.Answer r) = [] -> collected r = nsTargets (dns.Ns r).
Proof. unfold collected. now intros ->. Qed.

Lemma getNsRecords_collected (w : World) (zone server : string) (s : State)
    (r : dns.Msg) :
  fst (localQuery w (dns.Fqdn zone) dns.TypeNS server s) = Ret (Some r, None) ->
  collected r <> [] ->
  fst (getNsRecords w zone server s) =
  Ret (sortStrings (collected r),
       nth (random w (draws s) mod List.length (collected r)) (collected r) "",
       None).
Proof.
  intros Hq Hne. rewrite getNsRecords_eq. cbv zeta. rewrite Hq.
  destruct (collected r); [congruence | reflexivity].
Qed.

Lemma nth_mod_In (raw : nat) (l : list string) :
  l <> [] -> In (nth (raw mod List.length l) l "") l.
Proof.
  intros Hne. apply nth_In. apply Nat.mod_upper_bound.
  destruct l; [congruence | discriminate].
Qed.

(** C2: when the answer section of the response holds NS records, the list
    [getNsRecords] returns is the sorted list of the targets of those records
    and the selected server is one of them at the drawn index, whatever the
    authority section holds. *)
Theorem getNsRecords_answer_section (w : World) (zone server : string)
    (s : State) (rd : bool) (rcode : Z) (question : list dns.Question)
    (answer authority extra : list dns.RR) :
  fst (localQuery w (dns.Fqdn zone) dns.TypeNS server s) =
    Ret (Some (dns.mkMsg rd rcode question answer authority extra), None) ->
  0 < List.length (nsTargets answer) ->
  fst (getNsRecords w zone server s) =
  Ret (sortStrings (nsTargets answer),
       nth (random w (draws s) mod List.length (nsTargets answer))
           (nsTargets answer) "",
       None).
Proof.
  intros Hq Hk.
  assert (Hne : nsTargets answer <> []).
  { intros E. rewrite E in Hk. inversion Hk. }
  rewrite (getNsRecords_collected _ _ _ _ _ Hq);
    rewrite collected_answer by exact Hne; [reflexivity | exact Hne].
Qed.

Lemma getNsRecords_answer_section_witness :
  fst (getNsRecords
         (sampleWorld "com" (netConst (Some replyAnswer) None) (fun n => n))
         "." "192.0.2.53" initial) =
  Ret (["a.root."; "b.root."], "b.root.", None).
Proof.
  apply (getNsRecords_answer_section
           (sampleWorld "com" (netConst (Some replyAnswer) None) (fun n => n))
           "." "192.0.2.53" initial true dns.RcodeSuccess []
           [rrNS "." "b.root."; rrA "b.root." "198.51.100.2"; rrNS "." "a.root."]
           [rrNS "." "x.root."] []).
  - reflexivity.
  - simpl. lia.
Defined.

(** C3: when the answer section holds no NS record and the authority section
    holds [m > 0] of them, [getNsRecords] returns, without error, a list that
    is a rearrangement of the [m] authority targets. *)
Theorem getNsRecords_authority_section (w : World) (zone server : string)
    (s : State) (r : dns.Msg) :
  fst (localQuery w (dns.Fqdn zone) dns.TypeNS server s) = Ret (Some r, None) ->
  nsTargets (dns.Answer r) = [] ->
  0 < List.length (nsTargets (dns.Ns r)) ->
  exists ns selected,
    fst (getNsRecords w zone server s) = Ret (ns, selected, None)
    /\ Permutation (nsTargets (dns.Ns r)) ns
    /\ List.length ns = List.length (nsTargets (dns.Ns r))
    /\ (forall h, In h ns <-> In h (nsTargets (dns.Ns r))).
Proof.
  intros Hq Ha Hm.
  assert (Hc : collected r = nsTargets (dns.Ns r))
    by now apply collected_authority.
  assert (Hne : collected r <> []).
  { rewrite Hc. intros E. rewrite E in Hm. inversion Hm. }
  eexists _, _. split; [apply (getNsRecords_collected _ _ _ _ _ Hq Hne)|].
  rewrite Hc. split; [apply sortStrings_Permutation|].
  split; [apply sortStrings_length|].
  intros h. symmetry. apply sortStrings_In.
Qed.

Lemma getNsRecords_authority_section_witness :
  exists ns selected,
    fst (getNsRecords
           (sampleWorld "com" (netConst (Some replyReferral) None) (fun n => n))
           "com." "b.root." initial) = Ret (ns, selected, None)
    /\ Permutation ["b.gtld."; "a.gtld."] ns
    /\ List.length ns = 2
    /\ (forall h, In h ns <-> In h ["b.gtld."; "a.gtld."]).
Proof.
  apply (getNsRecords_authority_section
           (sampleWorld "com" (netConst (Some replyReferral) None) (fun n => n))
           "com." "b.root." initial replyReferral).
  - reflexivity.
  - reflexivity.
  - simpl. lia.
Defined.

(** C4: for a response (not nil) without NS records in the answer section
    and in the authority section, [getNsRecords] returns the error
    "No nameservers found for Z", Z the queried zone in fully-qualified form,
    with no nameserver list and no selected server. *)
Theorem getNsRecords_no_nameservers (w : World) (zone server : string)
    (s : State) (r : dns.Msg) :
  fst (localQuery w (dns.Fqdn zone) dns.TypeNS server s) = Ret (Some r, None) ->
  nsTargets (dns.Answer r) = [] ->
  nsTargets (dns.Ns r) = [] ->
  fst (getNsRecords w zone server s) =
  Ret ([], "", Some ("No nameservers found for " ++ dns.Fqdn zone)%string).
Proof.
  intros Hq Ha Hn. rewrite getNsRecords_eq. cbv zeta. rewrite Hq.
  unfold collected. rewrite Ha, Hn. reflexivity.
Qed.

Lemma getNsRecords_no_nameservers_witness :
  fst (getNsRecords
         (sampleWorld "com" (netConst (Some replyEmpty) None) (fun n => n))
         "com" "b.root." initial) =
  Ret ([], "", Some "No nameservers found for com.").
Proof.
  apply (getNsRecords_no_nameservers
           (sampleWorld "com" (netConst (Some replyEmpty) None) (fun n => n))
           "com" "b.root." initial replyEmpty); reflexivity.
Defined.

(** C7: whenever [getNsRecords] returns a non-empty nameserver list, the
    selected server it returns with it is a member of that list, in every
    world, that is, whatever the random source yields. *)
Theorem getNsRecords_selected_member (w : World) (zone server : string)
    (s : State) (ns : list string) (selected : string) (err : option error) :
  fst (getNsRecords w zone server s) = Ret (ns, selected, err) ->
  1 <= List.length ns ->
  In selected ns.
Proof.
  intros H Hk. rewrite getNsRecords_eq in H. cbv zeta in H.
  destruct (fst (localQuery w (dns.Fqdn zone) dns.TypeNS server s))
    as [[[r|] [e|]]|msg|msg]; cbv beta iota in H;
    try (inversion H; subst ns; inversion Hk; fail).
  destruct (collected r) as [|a l] eqn:E; cbv beta iota in H.
  - inversion H; subst ns; inversion Hk.
  - cbn [fst] in H.
    assert (Hns : ns = sortStrings (a :: l)) by congruence.
    assert (Hsel : selected =
              nth (random w (draws s) mod List.length (a :: l)) (a :: l) "")
      by congruence.
    rewrite Hns, Hsel. apply (proj1 (sortStrings_In _ _)).
    apply nth_mod_In. discriminate.
Qed.

Lemma getNsRecords_selected_member_witness :
  In "b.gtld." ["a.gtld."; "b.gtld."].
Proof.
  apply (getNsRecords_selected_member
           (sampleWorld "com" (netConst (Some replyReferral) None) (fun n => 4))
           "com." "b.root." initial ["a.gtld."; "b.gtld."] "b.gtld." None).
  - reflexivity.
  - simpl. lia.
Defined.

(** C8 (as amended): [getNsRecords] returns one nameserver list, the
    collected one sorted lexicographically (a rearrangement of it), and the
    selected server is the member of the collected list, in the order of
    collection, at the drawn index: the sort has no part in the selection. *)
Theorem getNsRecords_sorted_after_selection (w : World) (zone server : string)
    (s : State) (r : dns.Msg) :
  fst (localQuery w (dns.Fqdn zone) dns.TypeNS server s) = Ret (Some r, None) ->
  collected r <> [] ->
  exists ns selected,
    fst (getNsRecords w zone server s) = Ret (ns, selected, None)
    /\ ns = sortStrings (collected r)
    /\ Sorted lexLe ns
    /\ Permutation (collected r) ns
    /\ selected =
       nth (random w (draws s) mod List.length (collected r)) (collected r) "".
Proof.
  intros Hq Hne. eexists _, _.
  split; [apply (getNsRecords_collected _ _ _ _ _ Hq Hne)|].
  split; [reflexivity|].
  split; [apply sortStrings_Sorted|].
  split; [apply sortStrings_Permutation | reflexivity].
Qed.

Lemma getNsRecords_sorted_after_selection_witness :
  exists ns selected,
    fst (getNsRecords
           (sampleWorld "com" (netConst (Some replyAnswer) None) (fun n => n))
           "." "192.0.2.53" initial) = Ret (ns, selected, None)
    /\ ns = ["a.root."; "b.root."]
    /\ Sorted lexLe ns
    /\ Permutation ["b.root."; "a.root."] ns
    /\ selected = "b.root.".
Proof.
  apply (getNsRecords_sorted_after_selection
           (sampleWorld "com" (netConst (Some replyAnswer) None) (fun n => n))
           "." "192.0.2.53" initial replyAnswer).
  - reflexivity.
  - discriminate.
Defined.

(** C8, as stated, fails: the list collected from the response, in its
    unsorted order, is not returned. *)
Lemma getNsRecords_raw_list_not_returned :
  collected replyAnswer = ["b.root."; "a.root."]
  /\ ~ (exists selected err,
         fst (getNsRecords
                (sampleWorld "com" (netConst (Some replyAnswer) None)
                   (fun n => n))
                "." "192.0.2.53" initial)
         = Ret (collected replyAnswer, selected, err)).
Proof.
  split; [reflexivity|].
  intros [selected [err H]]. vm_compute in H. discriminate H.
Qed.

(** ** The zone walker *)

Lemma addOut_addOut (s : State) (o1 o2 : list string) :
  addOut (addOut s o1) o2 = addOut s (o1 ++ o2).
Proof. unfold addOut. cbn. now rewrite app_assoc. Qed.

Lemma printsOnly_Print (text : string) : printsOnly (Print text).
Proof. intros s. now exists [text]. Qed.

Lemma printsOnly_Println (text : string) : printsOnly (Println text).
Proof. apply printsOnly_Print. Qed.

Lemma printsOnly_forEach {A} (l : list A) (body : A -> M unit) :
  (forall x, printsOnly (body x)) -> printsOnly (forEach l body).
Proof.
  intros Hb. induction l as [|x l IH]; intros s; simpl.
  - exists []. unfold ret, addOut. rewrite app_nil_r. now destruct s.
  - unfold bind. destruct (Hb x s) as [o1 ->].
    destruct (IH (addOut s o1)) as [o2 ->].
    exists (o1 ++ o2). now rewrite addOut_addOut.
Qed.

Lemma nextExchange_addOut (w : World) (s : State) (out : list string)
    (q : string) (t : Z) (server : string) :
  nextExchange w (addOut s out) q t server = nextExchange w s q t server.
Proof. reflexivity. Qed.

(** A query step always returns to its caller, puts one exchange on the
    wire, and reports no error when the exchange is answered. *)
Lemma getNsRecords_step (w : World) (zone server : string) (s : State) :
  exists ns next err s',
    getNsRecords w zone server s = (Ret (ns, next, err), s')
    /\ queried s' = queried s ++ [dns.Fqdn zone]
    /\ (answered (nextExchange w s (dns.Fqdn zone) dns.TypeNS server) ->
        err = None).
Proof.
  pose proof (getNsRecords_wire w zone server s) as Hw.
  assert (Hq : forall s', wire s' = wire s ++
                 [(dns.SetQuestion (localm s) (dns.Fqdn zone) dns.TypeNS,
                   (server ++ ":53")%string)] ->
               queried s' = queried s ++ [dns.Fqdn zone]).
  { intros s' E. unfold queried. rewrite E, map_app. reflexivity. }
  rewrite getNsRecords_eq in *. cbv zeta in *.
  rewrite localQuery_eq in *. cbn [fst] in *.
  unfold answered.
  destruct (nextExchange w s (dns.Fqdn zone) dns.TypeNS server)
    as [[r|] [e|]]; cbn [fst snd].
  - eexists _, _, _, _. split; [reflexivity|]. split; [now apply Hq|].
    intros [H _]; discriminate.
  - destruct (rcodeAccepted r) eqn:Hr.
    + destruct (collected r) as [|a l] eqn:Hc.
      * eexists _, _, _, _. split; [reflexivity|]. split; [now apply Hq|].
        intros [_ H]. destruct (H r eq_refl) as [_ [Ha|Hn]]; exfalso.
        -- apply Ha. unfold collected in Hc.
           destruct (nsTargets (dns.Answer r)); [reflexivity | discriminate].
        -- apply Hn. unfold collected in Hc.
           destruct (nsTargets (dns.Answer r)); [exact Hc | discriminate].
      * eexists _, _, _, _. split; [reflexivity|]. split; [now apply Hq|].
        reflexivity.
    + eexists _, _, _, _. split; [reflexivity|]. split; [now apply Hq|].
      intros [_ H]. destruct (H r eq_refl) as [H' _]. congruence.
  - eexists _, _, _, _. split; [reflexivity|]. split; [now apply Hq|].
    intros [H _]; discriminate.
  - eexists _, _, _, _. split; [reflexivity|]. split; [now apply Hq|].
    reflexivity.
Qed.

Lemma IsFqdn_assemble (element acc : string) :
  dns.IsFqdn acc = true -> dns.IsFqdn (assemble element acc) = true.
Proof.
  intros H. unfold assemble. destruct (acc =? ".")%string.
  - apply IsFqdn_append_dot.
  - rewrite IsFqdn_append; [|discriminate].
    rewrite (IsFqdn_append "." acc); [exact H|].
    intros ->. discriminate.
Qed.

(** One turn of the loop: two prints, the query for the next zone, and then
    either the fatal exit or the listing and the rest of the loop. *)
Lemma walk_cons (w : World) (domain element : string) (pieces : list string)
    (acc nextNs : string) (s : State) :
  walk w domain (element :: pieces) acc nextNs s =
  let z := assemble element acc in
  let s1 := addOut (addOut s [nl])
              [(("Finding nameservers for zone '" ++ z
                 ++ "' using parent nameserver '" ++ nextNs ++ "'") ++ nl)%string] in
  match getNsRecords w z nextNs s1 with
  | (Ret (ns, next, Some e), s') =>
      (Fatal ("Query failed:  " ++ e ++ nl)%string, s')
  | (Ret (ns, next, None), s') =>
      (forEach ns (fun nameserver =>
         if (nameserver =? next) && negb (dns.Fqdn domain =? z)
         then Println (arrowMark ++ nameserver)%string
         else Println (dashMark ++ nameserver)%string) ;;;
       walk w domain pieces z next) s'
  | (Fatal msg, s') => (Fatal msg, s')
  | (Panic msg, s') => (Panic msg, s')
  end.
Proof.
  cbn [walk]. cbv zeta. unfold bind at 1. unfold Print at 1.
  unfold bind at 1. unfold Println at 1, Print at 1.
  unfold bind at 1. fold (addOut s [nl]).
  match goal with |- context [getNsRecords _ _ _ ?st] =>
    change st with
      (addOut (addOut s [nl])
         [(("Finding nameservers for zone '" ++ assemble element acc
            ++ "' using parent nameserver '" ++ nextNs ++ "'") ++ nl)%string])
  end.
  destruct (getNsRecords w _ _ _) as [[[[ns next] [e|]]|msg|msg] s'];
    reflexivity.
Qed.

Lemma walk_step (w : World) (domain element : string) (pieces : list string)
    (acc nextNs : string) (s : State) :
  dns.IsFqdn acc = true ->
  exists next err s',
    queried s' = queried s ++ [assemble element acc]
    /\ (answered (nextExchange w s (dns.Fqdn (assemble element acc))
                    dns.TypeNS nextNs) -> err = None)
    /\ (nextExchange w s (dns.Fqdn (assemble element acc)) dns.TypeNS nextNs
        = (None, None) -> err = None /\ next = "")
    /\ match err with
       | Some _ =>
           walk w domain (element :: pieces) acc nextNs s =
           (Fatal ("Query failed:  " ++ fmtError err ++ nl)%string, s')
       | None =>
           exists out,
             walk w domain (element :: pieces) acc nextNs s =
             walk w domain pieces (assemble element acc) next (addOut s' out)
       end.
Proof.
  intros Hacc. pose proof (walk_cons w domain element pieces acc nextNs s) as Hw.
  cbv zeta in Hw. revert Hw.
  set (s1 := addOut (addOut s [nl]) _). intros Hw.
  assert (E1 : nextExchange w s1 (dns.Fqdn (assemble element acc)) dns.TypeNS
                 nextNs
               = nextExchange w s (dns.Fqdn (assemble element acc)) dns.TypeNS
                   nextNs) by reflexivity.
  destruct (getNsRecords_step w (assemble element acc) nextNs s1)
    as (ns & next & err & s' & Hg & Hq & Hans).
  rewrite (Fqdn_fqdn _ (IsFqdn_assemble element acc Hacc)) in Hq.
  exists next, err, s'. split; [exact Hq|].
  split; [now rewrite <- E1|].
  split.
  { intros Hnil. rewrite <- E1 in Hnil.
    rewrite getNsRecords_eq in Hg. cbv zeta in Hg.
    rewrite localQuery_eq in Hg. rewrite Hnil in Hg. cbn [fst] in Hg.
    inversion Hg. now split. }
  rewrite Hg in Hw.
  destruct err as [e|]; [exact Hw|].
  unfold bind in Hw.
  match type of Hw with context [forEach ns ?b] =>
    destruct (printsOnly_forEach ns b) with (s := s') as [out Ho]
  end.
  - intros x. destruct (_ && _); apply printsOnly_Println.
  - rewrite Ho in Hw. exists out. exact Hw.
Qed.

Lemma assembled_length (acc : string) (pieces : list string) :
  List.length (assembled acc pieces) = List.length pieces.
Proof.
  revert acc. induction pieces as [|e ps IH]; intros acc; simpl;
    [reflexivity | now rewrite IH].
Qed.


Lemma main_unfold (w : World) (d : string) (conf : dns.ClientConfig)
    (server0 : string) (others : list string) :
  ArgRest w = [d] ->
  resolv_conf w = (Some conf, None) ->
  dns.Servers conf = server0 :: others ->
  main w initial =
  match getNsRecords w "." server0 rootState with
  | (Ret (ns, next, Some e), s') =>
      (Fatal ("Query failed: " ++ e)%string, s')
  | (Ret (ns, next, None), s') =>
      (forEach ns (fun nameserver =>
         if (nameserver =? next)%string
         then Println (arrowMark ++ nameserver)%string
         else Println (dashMark ++ nameserver)%string) ;;;
       walk w d (rev (dns.SplitDomainName d)) "." next) s'
  | (Fatal msg, s') => (Fatal msg, s')
  | (Panic msg, s') => (Panic msg, s')
  end.
Proof.
  intros Ha Hc Hs. unfold main. rewrite Ha, Hc, Hs. cbv zeta.
  unfold bind at 1. unfold setLocalm at 1.
  unfold bind at 1. unfold Println at 1, Print at 1.
  unfold bind at 1.
  match goal with |- context [getNsRecords _ _ _ ?st] =>
    change st with rootState
  end.
  destruct (getNsRecords w _ _ _) as [[[[ns next] [e|]]|msg|msg] s'];
    reflexivity.
Qed.


(** ** The zone names *)

Lemma assemble_zoneName (element : string) (labels : list string) :
  Forall (fun l => l <> "") labels ->
  assemble element (zoneName labels) = zoneName (element :: labels).
Proof.
  intros Hv. destruct labels as [|l labels].
  - cbn. unfold assemble. cbn. reflexivity.
  - inversion Hv as [|? ? Hl _]; subst. unfold assemble.
    destruct l as [|c l]; [congruence|].
    cbn [zoneName dotted].
    replace ((String c l ++ "." ++ dotted labels) =? ".")%string with false;
      [reflexivity|].
    symmetry. apply String.eqb_neq. cbn. intros E. inversion E as [[Ec El]].
    destruct l; discriminate.
Qed.

Lemma firstn_app_one {A} (done : list A) (e : A) (todo : list A) :
  firstn (S (List.length done)) (done ++ e :: todo) = done ++ [e].
Proof.
  induction done as [|x done IH]; [reflexivity|].
  cbn [List.length app]. rewrite firstn_cons. now rewrite IH.
Qed.

Lemma assembled_zoneName (todo : list string) :
  forall done : list string,
    Forall (fun l => l <> "") (done ++ todo) ->
    assembled (zoneName (rev done)) todo =
    map (fun k => zoneName (rev (firstn k (done ++ todo))))
        (seq (S (List.length done)) (List.length todo)).
Proof.
  induction todo as [|e todo IH]; intros done Hv; [reflexivity|].
  cbn [assembled List.length seq map].
  assert (Hd : Forall (fun l => l <> "") (rev done)).
  { apply Forall_rev. apply Forall_app in Hv. tauto. }
  rewrite (assemble_zoneName e (rev done) Hd).
  rewrite firstn_app_one, rev_unit. f_equal.
  replace (e :: rev done) with (rev (done ++ [e])) by apply rev_unit.
  replace (done ++ e :: todo) with ((done ++ [e]) ++ todo) in *
    by (rewrite <- app_assoc; reflexivity).
  rewrite (IH (done ++ [e]) Hv).
  rewrite length_app, Nat.add_1_r. reflexivity.
Qed.

Lemma lastn_rev {A} (k : nat) (l : list A) :
  lastn k l = rev (firstn k (rev l)).
Proof. unfold lastn. now rewrite firstn_rev, rev_involutive. Qed.

(** For labels that are not empty, the zones the loop assembles are the zones
    of the last label, of the last two labels, and so on. *)
Lemma assembled_zoneSequence (labels : list string) :
  Forall (fun l => l <> "") labels ->
  "." :: assembled "." (rev labels) = zoneSequence labels.
Proof.
  intros Hv. unfold zoneSequence. cbn [seq map]. f_equal.
  - unfold lastn. rewrite Nat.sub_0_r, skipn_all. reflexivity.
  - change "." with (zoneName (rev [])).
    rewrite (assembled_zoneName (rev labels) []); [|now apply Forall_rev].
    cbn [app List.length]. rewrite length_rev.
    apply map_ext. intros k. now rewrite lastn_rev.
Qed.


Lemma zoneSequence_last (labels : list string) :
  last (zoneSequence labels) "" = zoneName labels.
Proof.
  unfold zoneSequence. rewrite seq_S, map_app. cbn [map plus].
  rewrite last_last. unfold lastn. now rewrite Nat.sub_diag.
Qed.


(** ** The walk as a whole *)
















(** ** The form of the target domain *)

Lemma getNsRecords_withDomain (w : World) (d zone server : string) (s : State) :
  getNsRecords (withDomain w d) zone server s = getNsRecords w zone server s.
Proof. reflexivity. Qed.

(** The loop reads the target domain only in its fully-qualified form, and
    the world only through the wire and the random source. *)
Lemma walk_withDomain (w : World) (d1 d2 dom1 dom2 : string)
    (pieces : list string) :
  dns.Fqdn dom1 = dns.Fqdn dom2 ->
  forall (acc nextNs : string) (s : State),
    walk (withDomain w d1) dom1 pieces acc nextNs s =
    walk (withDomain w d2) dom2 pieces acc nextNs s.
Proof.
  intros Hf. induction pieces as [|element pieces IH]; intros acc nextNs s;
    [reflexivity|].
  rewrite !walk_cons. cbv zeta. rewrite !getNsRecords_withDomain, Hf.
  destruct (getNsRecords w _ _ _) as [[[[ns next] [e|]]|msg|msg] s'];
    try reflexivity.
  unfold bind.
  destruct (forEach ns _ s') as [[[]|msg|msg] s'']; try reflexivity.
  apply IH.
Qed.

(** C9: for a target domain written without the trailing dot, the run on it
    and the run on the same domain with the trailing dot are the same run:
    same outcome, same final state, and so the same sequence of queried zone
    names. *)
Theorem trailing_dot_same_walk (w : World) (x : string) :
  dns.IsFqdn x = false ->
  main (withDomain w (x ++ ".")) initial = main (withDomain w x) initial
  /\ queried (snd (main (withDomain w (x ++ ".")) initial)) =
     queried (snd (main (withDomain w x) initial)).
Proof.
  intros Hx.
  assert (E : main (withDomain w (x ++ ".")) initial =
              main (withDomain w x) initial).
  { destruct (resolv_conf w) as [[conf|] [e|]] eqn:Hc;
      try (unfold main; cbn [ArgRest resolv_conf withDomain]; rewrite Hc;
           reflexivity).
    destruct (dns.Servers conf) as [|server0 others] eqn:Hs.
    { unfold main. cbn [ArgRest resolv_conf withDomain]. rewrite Hc, Hs.
      reflexivity. }
    rewrite (main_unfold (withDomain w (x ++ ".")) (x ++ ".") conf server0
               others eq_refl Hc Hs).
    rewrite (main_unfold (withDomain w x) x conf server0 others eq_refl Hc Hs).
    rewrite !getNsRecords_withDomain.
    destruct (getNsRecords w _ _ _) as [[[[ns next] [e|]]|msg|msg] s'];
      try reflexivity.
    unfold bind.
    destruct (forEach ns _ s') as [[[]|msg|msg] s'']; try reflexivity.
    rewrite (SplitDomainName_append_dot x Hx).
    apply walk_withDomain, Fqdn_append_dot, Hx. }
  split; [exact E | now rewrite E].
Qed.

Lemma trailing_dot_same_walk_witness :
  queried (snd (main (withDomain (sampleWorld "" netReferral (fun n => n))
                        "www.example.com.") initial))
  = queried (snd (main (withDomain (sampleWorld "" netReferral (fun n => n))
                          "www.example.com") initial)).
Proof.
  apply (trailing_dot_same_walk (sampleWorld "" netReferral (fun n => n))
           "www.example.com").
  reflexivity.
Defined.

(** ** A nil response *)

(** C10: when the exchange returns neither a response nor an error,
    [localQuery] returns the nil response and no error, [getNsRecords]
    returns no error with an empty nameserver list and an empty selected
    server, and [main] does not exit: a turn of its loop whose query ends so
    goes on with the remaining pieces, and so does the query for the root
    zone, with the empty server name as the next server. *)
Theorem nil_response_continues (w : World) (zone server : string) (s : State) :
  nextExchange w s (dns.Fqdn zone) dns.TypeNS server = (None, None) ->
  fst (localQuery w (dns.Fqdn zone) dns.TypeNS server s) = Ret (None, None)
  /\ fst (getNsRecords w zone server s) = Ret ([], "", None)
  /\ (forall (domain element acc : string) (pieces : list string),
        assemble element acc = zone ->
        dns.IsFqdn acc = true ->
        exists s',
          walk w domain (element :: pieces) acc server s =
          walk w domain pieces zone "" s'
          /\ queried s' = queried s ++ [zone])
  /\ (forall (d : string) (conf : dns.ClientConfig) (others : list string),
        zone = "." -> s = rootState ->
        ArgRest w = [d] ->
        resolv_conf w = (Some conf, None) ->
        dns.Servers conf = server :: others ->
        exists s',
          main w initial =
          walk w d (rev (dns.SplitDomainName d)) "." "" s'
          /\ queried s' = ["."]).
Proof.
  intros Hnil.
  assert (Hq : fst (localQuery w (dns.Fqdn zone) dns.TypeNS server s)
               = Ret (None, None)).
  { rewrite localQuery_eq, Hnil. reflexivity. }
  assert (Hg : getNsRecords w zone server s =
               (Ret ([], "", None), sent s (dns.Fqdn zone) dns.TypeNS server)).
  { rewrite getNsRecords_eq. cbv zeta. rewrite Hq. reflexivity. }
  split; [exact Hq|]. split; [now rewrite Hg|]. split.
  - intros domain element acc pieces Hz Hacc. subst zone.
    destruct (walk_step w domain element pieces acc server s Hacc)
      as (next & err & s' & Hqs & _ & Hn & Hw).
    destruct (Hn Hnil) as [-> ->]. destruct Hw as [out Hw].
    exists (addOut s' out). split; [exact Hw | exact Hqs].
  - intros d conf others -> -> Ha Hc Hs.
    rewrite (main_unfold w d conf server others Ha Hc Hs), Hg.
    eexists. split; reflexivity.
Qed.

Lemma nil_response_continues_witness :
  fst (getNsRecords (sampleWorld "example.com" (netConst None None) (fun n => n))
         "com." "" initial) = Ret ([], "", None)
  /\ exists s',
       walk (sampleWorld "example.com" (netConst None None) (fun n => n))
         "example.com" ["com"; "example"] "." "" initial =
       walk (sampleWorld "example.com" (netConst None None) (fun n => n))
         "example.com" ["example"] "com." "" s'
       /\ queried s' = queried initial ++ ["com."].
Proof.
  destruct (nil_response_continues
              (sampleWorld "example.com" (netConst None None) (fun n => n))
              "com." "" initial eq_refl) as (_ & Hg & Hw & _).
  split; [exact Hg|].
  apply (Hw "example.com" "com" "." ["example"]); reflexivity.
Defined.

(** In a world where every exchange returns a nil response and no error the
    whole run goes through every level and ends without a fatal exit. *)
Example nil_world_run :
  fst (main (sampleWorld "www.example.com" (netConst None None) (fun n => n))
         initial) = Ret tt
  /\ queried (snd (main (sampleWorld "www.example.com" (netConst None None)
                           (fun n => n)) initial))
     = ["."; "com."; "example.com."; "www.example.com."]
  /\ map snd (wire (snd (main (sampleWorld "www.example.com"
                                 (netConst None None) (fun n => n)) initial)))
     = ["192.0.2.53:53"; ":53"; ":53"; ":53"].
Proof. repeat split. Qed.

(** * Further properties of the program *)

(** ** What one call of [getNsRecords] does *)

(** The two ways a call ends: with nothing collected (after an error, a nil
    response, a rejected status or a response without NS records), or with
    the sorted list and a selection after one random draw. *)
Lemma getNsRecords_run (w : World) (zone server : string) (s : State) :
  (exists err,
      getNsRecords w zone server s =
      (Ret ([], "", err), sent s (dns.Fqdn zone) dns.TypeNS server)
      /\ (err = None ->
          nextExchange w s (dns.Fqdn zone) dns.TypeNS server = (None, None)))
  \/ (exists r,
      nextExchange w s (dns.Fqdn zone) dns.TypeNS server = (Some r, None)
      /\ rcodeAccepted r = true
      /\ collected r <> []
      /\ getNsRecords w zone server s =
         (Ret (sortStrings (collected r),
               nth (random w (draws s) mod List.length (collected r))
                   (collected r) "",
               None),
          drawn (sent s (dns.Fqdn zone) dns.TypeNS server))).
Proof.
  rewrite getNsRecords_eq. cbv zeta. rewrite localQuery_eq. cbn [fst].
  destruct (nextExchange w s (dns.Fqdn zone) dns.TypeNS server)
    as [[r|] [e|]].
  - left. eexists. split; [reflexivity | discriminate].
  - destruct (rcodeAccepted r) eqn:Hr.
    + destruct (collected r) as [|a l] eqn:Hc.
      * left. eexists. split; [reflexivity | discriminate].
      * right. exists r. rewrite Hc.
        repeat split; [exact Hr | discriminate].
    + left. eexists. split; [reflexivity | discriminate].
  - left. eexists. split; [reflexivity | discriminate].
  - left. eexists. split; [reflexivity | reflexivity].
Qed.

(** [getNsRecords] does not exit the process: a goal in which it did is
    closed. *)
Ltac never_exits Hg :=
  match type of Hg with
  | getNsRecords ?w ?zone ?server ?s = _ =>
      destruct (getNsRecords_run w zone server s)
        as [[? [? _]] | (? & _ & _ & _ & ?)]; congruence
  end.

Lemma sortStrings_nonempty (l : list string) : l <> [] -> sortStrings l <> [].
Proof.
  intros Hl E. apply Hl. apply length_zero_iff_nil.
  now rewrite <- sortStrings_length, E.
Qed.

(** X1: a call of [getNsRecords] always returns to its caller.  What it
    returns is either no list with the empty server name, or a non-empty
    list without error; an error never comes with nameservers, and the empty
    result without error is the answer to a nil response only. *)
Theorem getNsRecords_result_shape (w : World) (zone server : string)
    (s : State) :
  exists ns selected err,
    fst (getNsRecords w zone server s) = Ret (ns, selected, err)
    /\ (ns = [] -> selected = "")
    /\ (err <> None -> ns = [])
    /\ (ns = [] -> err = None ->
        nextExchange w s (dns.Fqdn zone) dns.TypeNS server = (None, None)).
Proof.
  destruct (getNsRecords_run w zone server s)
    as [[err [Hg Hn]] | (r & Hx & Hr & Hne & Hg)]; rewrite Hg; cbn [fst].
  - exists [], "", err. repeat split; auto.
  - eexists _, _, _. split; [reflexivity|].
    repeat split; intros H.
    + now destruct (sortStrings_nonempty _ Hne).
    + now destruct H.
    + now destruct (sortStrings_nonempty _ Hne).
Qed.

(** X2: a call of [getNsRecords] prints nothing, leaves the question for
    the fully-qualified zone, of type NS, in the shared message, puts
    exactly one exchange on the wire, to port 53 of the server, and draws
    one random number when it returns nameservers and none otherwise. *)
Theorem getNsRecords_footprint (w : World) (zone server : string) (s : State) :
  stdout (snd (getNsRecords w zone server s)) = stdout s
  /\ localm (snd (getNsRecords w zone server s)) =
     dns.SetQuestion (localm s) (dns.Fqdn zone) dns.TypeNS
  /\ wire (snd (getNsRecords w zone server s)) =
     wire s ++ [(dns.SetQuestion (localm s) (dns.Fqdn zone) dns.TypeNS,
                 (server ++ ":53")%string)]
  /\ (forall ns selected err,
        fst (getNsRecords w zone server s) = Ret (ns, selected, err) ->
        draws (snd (getNsRecords w zone server s)) =
        match ns with
        | [] => draws s
        | _ :: _ => S (draws s)
        end).
Proof.
  destruct (getNsRecords_run w zone server s)
    as [[err [Hg Hn]] | (r & Hx & Hr & Hne & Hg)]; rewrite Hg;
    cbn [fst snd]; repeat split; try reflexivity.
  - intros ns selected err' H. inversion H; subst. reflexivity.
  - intros ns selected err' H.
    assert (E : ns = sortStrings (collected r)) by congruence.
    pose proof (sortStrings_nonempty _ Hne) as Hs. rewrite <- E in Hs.
    destruct ns; [congruence | reflexivity].
Qed.

(** X3: when the response holds a single NS record to collect, that
    nameserver is the one selected, whatever the random source yields. *)
Theorem getNsRecords_single_nameserver (w : World) (zone server : string)
    (s : State) (r : dns.Msg) (h : string) :
  fst (localQuery w (dns.Fqdn zone) dns.TypeNS server s) = Ret (Some r, None) ->
  collected r = [h] ->
  fst (getNsRecords w zone server s) = Ret ([h], h, None).
Proof.
  intros Hq Hc.
  rewrite (getNsRecords_collected w zone server s r Hq); rewrite Hc.
  - cbn [List.length]. rewrite Nat.mod_1_r. reflexivity.
  - discriminate.
Qed.

Lemma getNsRecords_single_nameserver_witness :
  fst (getNsRecords
         (sampleWorld "com"
            (netConst (Some (reply dns.RcodeSuccess [rrNS "com." "a.gtld."] []))
               None)
            (fun n => 41))
         "com" "b.root." initial) = Ret (["a.gtld."], "a.gtld.", None).
Proof.
  apply (getNsRecords_single_nameserver
           (sampleWorld "com"
              (netConst (Some (reply dns.RcodeSuccess [rrNS "com." "a.gtld."] []))
                 None)
              (fun n => 41))
           "com" "b.root." initial
           (reply dns.RcodeSuccess [rrNS "com." "a.gtld."] []) "a.gtld.");
    reflexivity.
Defined.

(** ** How [main] starts *)

(** X4: with a number of command-line arguments other than one, [main]
    exits with the usage message before anything is printed or sent. *)
Theorem main_usage (w : World) :
  List.length (ArgRest w) <> 1 ->
  main w initial = (Fatal (Arg0 w ++ " ZONE" ++ nl)%string, initial).
Proof.
  intros H. unfold main.
  destruct (ArgRest w) as [|d [|d' rest]]; try reflexivity.
  now destruct H.
Qed.

Lemma main_usage_witness :
  main (bareWorld ["example.com"; "example.org"]
          (Some (dns.mkClientConfig ["192.0.2.53"]), None)) initial
  = (Fatal ("zone-nameservers ZONE" ++ nl)%string, initial).
Proof.
  apply (main_usage (bareWorld ["example.com"; "example.org"]
                       (Some (dns.mkClientConfig ["192.0.2.53"]), None))).
  discriminate.
Defined.

(** X5: when the resolver configuration cannot be read (an error, or no
    configuration), [main] exits with "Cannot initialize the local
    resolver: " and the error before anything is printed or sent. *)
Theorem main_resolver_failure (w : World) (d : string) :
  ArgRest w = [d] ->
  snd (resolv_conf w) <> None \/ fst (resolv_conf w) = None ->
  main w initial =
  (Fatal ("Cannot initialize the local resolver: "
          ++ fmtError (snd (resolv_conf w)) ++ nl)%string, initial).
Proof.
  intros Ha H. unfold main. rewrite Ha.
  destruct (resolv_conf w) as [[conf|] [e|]]; cbn [fst snd] in *;
    try reflexivity.
  destruct H as [H|H]; [now destruct H | discriminate].
Qed.

Lemma main_resolver_failure_witness :
  main (bareWorld ["example.com"]
          (None, Some "open /etc/resolv.conf: no such file or directory"))
    initial
  = (Fatal ("Cannot initialize the local resolver: "
            ++ "open /etc/resolv.conf: no such file or directory" ++ nl)%string,
     initial).
Proof.
  apply (main_resolver_failure
           (bareWorld ["example.com"]
              (None, Some "open /etc/resolv.conf: no such file or directory"))
           "example.com").
  - reflexivity.
  - left. discriminate.
Defined.

(** ** One turn of the loop, with what it prints *)

Lemma addOut_nil (s : State) : addOut s [] = s.
Proof. unfold addOut. rewrite app_nil_r. now destruct s. Qed.

Lemma forEach_listing (marked : string -> bool) (ns : list string) :
  forall s : State,
    forEach ns (fun nameserver =>
      if marked nameserver
      then Println (arrowMark ++ nameserver)%string
      else Println (dashMark ++ nameserver)%string) s =
    (Ret tt, addOut s (map (fun n => listingLine (marked n) n) ns)).
Proof.
  induction ns as [|n ns IH]; intros s; cbn [forEach map].
  - unfold ret. now rewrite addOut_nil.
  - unfold bind. 
    assert (E : (if marked n then Println (arrowMark ++ n)%string
                 else Println (dashMark ++ n)%string) s =
                (Ret tt, addOut s [listingLine (marked n) n])).
    { destruct (marked n); reflexivity. }
    rewrite E, IH, addOut_addOut. reflexivity.
Qed.

Lemma walk_turn (w : World) (domain element : string) (pieces : list string)
    (acc nextNs : string) (s : State) :
  match getNsRecords w (assemble element acc) nextNs
          (turnState s (assemble element acc) nextNs) with
  | (Ret (ns, next, None), s') =>
      walk w domain (element :: pieces) acc nextNs s =
      walk w domain pieces (assemble element acc) next
        (addOut s'
           (map (fun n =>
                   listingLine ((n =? next)%string
                                && negb (dns.Fqdn domain
                                         =? assemble element acc)%string) n)
                ns))
  | (Ret (_, _, Some e), s') =>
      walk w domain (element :: pieces) acc nextNs s =
      (Fatal ("Query failed:  " ++ e ++ nl)%string, s')
  | (Fatal msg, s') =>
      walk w domain (element :: pieces) acc nextNs s = (Fatal msg, s')
  | (Panic msg, s') =>
      walk w domain (element :: pieces) acc nextNs s = (Panic msg, s')
  end.
Proof.
  rewrite walk_cons. cbv zeta.
  change (addOut (addOut s [nl]) _)
    with (turnState s (assemble element acc) nextNs).
  destruct (getNsRecords w _ _ _) as [[[[ns next] [e|]]|msg|msg] s'];
    try reflexivity.
  unfold bind.
  rewrite (forEach_listing
             (fun n => (n =? next)%string
                       && negb (dns.Fqdn domain =? assemble element acc)%string)).
  reflexivity.
Qed.

Lemma main_root_turn (w : World) (d : string) (conf : dns.ClientConfig)
    (server0 : string) (others : list string) :
  ArgRest w = [d] ->
  resolv_conf w = (Some conf, None) ->
  dns.Servers conf = server0 :: others ->
  match getNsRecords w "." server0 rootState with
  | (Ret (ns, next, None), s') =>
      main w initial =
      walk w d (rev (dns.SplitDomainName d)) "." next
        (addOut s' (map (fun n => listingLine (n =? next)%string n) ns))
  | (Ret (_, _, Some e), s') =>
      main w initial = (Fatal ("Query failed: " ++ e)%string, s')
  | (Fatal msg, s') => main w initial = (Fatal msg, s')
  | (Panic msg, s') => main w initial = (Panic msg, s')
  end.
Proof.
  intros Ha Hc Hs. rewrite (main_unfold w d conf server0 others Ha Hc Hs).
  destruct (getNsRecords w _ _ _) as [[[[ns next] [e|]]|msg|msg] s'];
    try reflexivity.
  unfold bind.
  rewrite (forEach_listing (fun n => (n =? next)%string)).
  reflexivity.
Qed.

(** The loop ends by running out of pieces or by a fatal exit. *)
Lemma walk_outcome (w : World) (domain : string) (pieces : list string) :
  forall (acc nextNs : string) (s : State),
    fst (walk w domain pieces acc nextNs s) = Ret tt
    \/ exists msg, fst (walk w domain pieces acc nextNs s) = Fatal msg.
Proof.
  induction pieces as [|element pieces IH]; intros acc nextNs s.
  - left. reflexivity.
  - pose proof (walk_turn w domain element pieces acc nextNs s) as Ht.
    destruct (getNsRecords_run w (assemble element acc) nextNs
                (turnState s (assemble element acc) nextNs))
      as [[[e|] [Hg _]] | (r & _ & _ & _ & Hg)]; rewrite Hg in Ht;
      rewrite Ht.
    + right. eexists. reflexivity.
    + apply IH.
    + apply IH.
Qed.

(** X6: the only run-time panic of a run is the index out of range on
    [conf.Servers[0]], when the configuration lists no server; it happens
    after the first line is printed and before anything is sent.  In
    particular [rand.Intn] is never called on zero and no index into the
    collected nameservers or the pieces is out of range. *)
Theorem main_panic_iff (w : World) (msg : string) :
  (fst (main w initial) = Panic msg <->
   exists d conf,
     ArgRest w = [d]
     /\ resolv_conf w = (Some conf, None)
     /\ dns.Servers conf = []
     /\ msg = "index out of range [0] with length 0")
  /\ (fst (main w initial) = Panic msg ->
      snd (main w initial) = rootState).
Proof.
  assert (Hfwd : fst (main w initial) = Panic msg ->
                 (exists d conf,
                     ArgRest w = [d]
                     /\ resolv_conf w = (Some conf, None)
                     /\ dns.Servers conf = []
                     /\ msg = "index out of range [0] with length 0")
                 /\ snd (main w initial) = rootState).
  { destruct (ArgRest w) as [|d [|d' rest]] eqn:Ha;
      try (unfold main; rewrite Ha; discriminate).
    destruct (resolv_conf w) as [[conf|] [e|]] eqn:Hc;
      try (unfold main; rewrite Ha, Hc; discriminate).
    destruct (dns.Servers conf) as [|server0 others] eqn:Hs.
    - unfold main. rewrite Ha, Hc, Hs. cbn. intros H.
      split; [|reflexivity].
      exists d, conf. repeat split; congruence.
    - pose proof (main_root_turn w d conf server0 others Ha Hc Hs) as Ht.
      destruct (getNsRecords_run w "." server0 rootState)
        as [[[e|] [Hg _]] | (r & _ & _ & _ & Hg)]; rewrite Hg in Ht;
        rewrite Ht; try discriminate;
        intros H;
        match type of H with
        | fst (walk ?w ?d ?p ?a ?n ?s) = _ =>
            destruct (walk_outcome w d p a n s) as [E|[m E]];
            rewrite E in H; discriminate
        end. }
  split; [split|]; [apply Hfwd | | apply Hfwd].
  intros (d & conf & Ha & Hc & Hs & ->).
  unfold main. rewrite Ha, Hc, Hs. reflexivity.
Qed.

(** ** Failed queries *)

(** X7: when the query for the root zone fails, [main] exits with
    "Query failed: " and the error; the first line is all that was printed
    and the query for the root all that was sent. *)
Theorem main_root_query_failed (w : World) (d : string)
    (conf : dns.ClientConfig) (server0 : string) (others ns : list string)
    (next : string) (e : error) :
  ArgRest w = [d] ->
  resolv_conf w = (Some conf, None) ->
  dns.Servers conf = server0 :: others ->
  fst (getNsRecords w "." server0 rootState) = Ret (ns, next, Some e) ->
  fst (main w initial) = Fatal ("Query failed: " ++ e)%string
  /\ stdout (snd (main w initial)) =
     [("Retrieving list of root nameservers:" ++ nl)%string]
  /\ map snd (wire (snd (main w initial))) = [(server0 ++ ":53")%string]
  /\ queried (snd (main w initial)) = ["."].
Proof.
  intros Ha Hc Hs He.
  pose proof (main_root_turn w d conf server0 others Ha Hc Hs) as Ht.
  destruct (getNsRecords_run w "." server0 rootState)
    as [[err [Hg _]] | (r & _ & _ & _ & Hg)]; rewrite Hg in Ht, He;
    cbn [fst] in He; [|discriminate].
  assert (err = Some e) by congruence. subst err.
  rewrite Ht. repeat split.
Qed.

Lemma main_root_query_failed_witness :
  fst (main (sampleWorld "example.com" (netConst (Some replyServFail) None)
               (fun n => n)) initial)
  = Fatal "Query failed: No name server to answer the question"
  /\ stdout (snd (main (sampleWorld "example.com"
                          (netConst (Some replyServFail) None) (fun n => n))
                    initial))
     = [("Retrieving list of root nameservers:" ++ nl)%string]
  /\ map snd (wire (snd (main (sampleWorld "example.com"
                                 (netConst (Some replyServFail) None)
                                 (fun n => n)) initial)))
     = ["192.0.2.53:53"]
  /\ queried (snd (main (sampleWorld "example.com"
                           (netConst (Some replyServFail) None) (fun n => n))
                     initial)) = ["."].
Proof.
  apply (main_root_query_failed
           (sampleWorld "example.com" (netConst (Some replyServFail) None)
              (fun n => n))
           "example.com" (dns.mkClientConfig ["192.0.2.53"]) "192.0.2.53" []
           [] "" "No name server to answer the question");
    reflexivity.
Defined.

(** X8: when the query of a level of the loop fails, [main] exits with
    "Query failed:  ", the error and a newline, right after the header of
    that level: no nameserver line is printed for it, and the pieces that
    remain are never queried. *)
Theorem walk_query_failed (w : World) (domain element : string)
    (pieces ns : list string) (acc nextNs next : string) (e : error)
    (s : State) :
  fst (getNsRecords w (assemble element acc) nextNs
         (turnState s (assemble element acc) nextNs))
  = Ret (ns, next, Some e) ->
  fst (walk w domain (element :: pieces) acc nextNs s)
  = Fatal ("Query failed:  " ++ e ++ nl)%string
  /\ stdout (snd (walk w domain (element :: pieces) acc nextNs s))
     = stdout s ++ [nl; header (assemble element acc) nextNs]
  /\ wire (snd (walk w domain (element :: pieces) acc nextNs s))
     = wire s ++ [(dns.SetQuestion (localm s)
                     (dns.Fqdn (assemble element acc)) dns.TypeNS,
                   (nextNs ++ ":53")%string)].
Proof.
  intros He.
  pose proof (walk_turn w domain element pieces acc nextNs s) as Ht.
  destruct (getNsRecords_run w (assemble element acc) nextNs
              (turnState s (assemble element acc) nextNs))
    as [[err [Hg _]] | (r & _ & _ & _ & Hg)]; rewrite Hg in Ht, He;
    cbn [fst] in He; [|discriminate].
  assert (err = Some e) by congruence. subst err.
  rewrite Ht. cbn [fst snd]. split; [reflexivity|]. split; [|reflexivity].
  cbn. rewrite <- app_assoc. reflexivity.
Qed.

Lemma walk_query_failed_witness :
  fst (walk (sampleWorld "example.com" netTimeout (fun n => n)) "example.com"
         ["com"; "example"] "." "a.root." initial)
  = Fatal ("Query failed:  i/o timeout" ++ nl)%string
  /\ stdout (snd (walk (sampleWorld "example.com" netTimeout (fun n => n))
                    "example.com" ["com"; "example"] "." "a.root." initial))
     = stdout initial ++ [nl; header (assemble "com" ".") "a.root."]
  /\ wire (snd (walk (sampleWorld "example.com" netTimeout (fun n => n))
                  "example.com" ["com"; "example"] "." "a.root." initial))
     = wire initial
       ++ [(dns.SetQuestion (localm initial) (dns.Fqdn (assemble "com" "."))
              dns.TypeNS, "a.root.:53")].
Proof.
  apply (walk_query_failed
           (sampleWorld "example.com" netTimeout (fun n => n)) "example.com"
           "com" ["example"] [] "." "a.root." "" "i/o timeout" initial).
  reflexivity.
Defined.

(** ** What goes on the wire *)

Lemma wellFormedQuery_SetQuestion (m : dns.Msg) (zone server : string) :
  wellFormedQuery (dns.SetQuestion m (dns.Fqdn zone) dns.TypeNS,
                   (server ++ ":53")%string).
Proof.
  exists (dns.Fqdn zone), server. cbn [fst snd dns.SetQuestion
    dns.Question_ dns.RecursionDesired].
  repeat split. apply Fqdn_IsFqdn.
Qed.

Lemma getNsRecords_wire_after (w : World) (zone server : string) (s : State)
    (res : list string * string * option error) (s' : State) :
  getNsRecords w zone server s = (Ret res, s') ->
  wire s' = wire s ++ [(dns.SetQuestion (localm s) (dns.Fqdn zone) dns.TypeNS,
                        (server ++ ":53")%string)]
  /\ stdout s' = stdout s.
Proof.
  intros Hg.
  destruct (getNsRecords_run w zone server s)
    as [[err [Hg' _]] | (r & _ & _ & _ & Hg')]; rewrite Hg' in Hg;
    inversion Hg; subst; split; reflexivity.
Qed.

Lemma walk_wire_wellFormed (w : World) (domain : string)
    (pieces : list string) :
  forall (acc nextNs : string) (s : State),
    Forall wellFormedQuery (wire s) ->
    Forall wellFormedQuery (wire (snd (walk w domain pieces acc nextNs s))).
Proof.
  induction pieces as [|element pieces IH]; intros acc nextNs s Hs;
    [exact Hs|].
  pose proof (walk_turn w domain element pieces acc nextNs s) as Ht.
  destruct (getNsRecords w (assemble element acc) nextNs
              (turnState s (assemble element acc) nextNs))
    as [[[[ns next] err]|msg|msg] s'] eqn:Hg.
  - destruct (getNsRecords_wire_after _ _ _ _ _ _ Hg) as [Hw _].
    assert (Hs' : Forall wellFormedQuery (wire s')).
    { rewrite Hw. apply Forall_app. split; [exact Hs|].
      constructor; [apply wellFormedQuery_SetQuestion | constructor]. }
    destruct err as [e|]; rewrite Ht; [exact Hs'|].
    apply IH. exact Hs'.
  - never_exits Hg.
  - never_exits Hg.
Qed.

(** X9: whatever the world, every exchange of a run carries exactly one
    question, of type NS and class INET, for a fully-qualified name, with
    recursion desired, and goes to port 53 of a server. *)
Theorem main_wire_wellFormed (w : World) :
  Forall wellFormedQuery (wire (snd (main w initial))).
Proof.
  destruct (ArgRest w) as [|d [|d' rest]] eqn:Ha;
    try (unfold main; rewrite Ha; constructor).
  destruct (resolv_conf w) as [[conf|] [e|]] eqn:Hc;
    try (unfold main; rewrite Ha, Hc; constructor).
  destruct (dns.Servers conf) as [|server0 others] eqn:Hs.
  { unfold main. rewrite Ha, Hc, Hs. constructor. }
  pose proof (main_root_turn w d conf server0 others Ha Hc Hs) as Ht.
  destruct (getNsRecords w "." server0 rootState)
    as [[[[ns next] err]|msg|msg] s'] eqn:Hg.
  - destruct (getNsRecords_wire_after _ _ _ _ _ _ Hg) as [Hw _].
    assert (Hs' : Forall wellFormedQuery (wire s')).
    { rewrite Hw. constructor; [|constructor].
      apply (wellFormedQuery_SetQuestion _ "." server0). }
    destruct err as [e|]; rewrite Ht; [exact Hs'|].
    apply walk_wire_wellFormed. exact Hs'.
  - never_exits Hg.
  - never_exits Hg.
Qed.

(** ** From one level to the next *)

Lemma drawsOf_snoc (w : World) (entries : list (dns.Msg * string))
    (e : dns.Msg * string) :
  forall i,
    drawsOf w i (entries ++ [e]) =
    drawsOf w i entries
    + (if yields (Exchange w (i + List.length entries) (fst e) (snd e))
       then 1 else 0).
Proof.
  induction entries as [|x entries IH]; intros i; cbn [drawsOf app List.length].
  - rewrite !Nat.add_0_r. reflexivity.
  - rewrite IH. replace (S i + List.length entries)
      with (i + S (List.length entries)) by lia.
    apply Nat.add_assoc.
Qed.

Lemma followed_snoc (w : World) (pre : list (dns.Msg * string))
    (prev new : dns.Msg * string) (sel : string) :
  followed w (pre ++ [prev]) ->
  selectedAt w (drawsOf w 0 pre)
    (Exchange w (List.length pre) (fst prev) (snd prev)) sel ->
  snd new = (sel ++ ":53")%string ->
  followed w ((pre ++ [prev]) ++ [new]).
Proof.
  intros Hf Hsel Hnew i e1 e2 H1 H2.
  assert (Hlen : List.length (pre ++ [prev]) = S (List.length pre)).
  { rewrite length_app. cbn. lia. }
  destruct (Nat.lt_ge_cases (S i) (S (List.length pre))) as [Hlt|Hge].
  - rewrite nth_error_app1 in H1 by lia.
    rewrite nth_error_app1 in H2 by lia.
    rewrite firstn_app.
    replace (i - List.length (pre ++ [prev])) with 0 by lia.
    cbn [firstn]. rewrite app_nil_r.
    exact (Hf i e1 e2 H1 H2).
  - assert (Hi : i = List.length pre).
    { assert (S i < List.length ((pre ++ [prev]) ++ [new])).
      { apply nth_error_Some. congruence. }
      rewrite length_app, Hlen in H. cbn in H. lia. }
    subst i.
    rewrite nth_error_app1 in H1 by lia.
    rewrite nth_error_app2 in H1 by lia.
    rewrite Nat.sub_diag in H1. cbn in H1. inversion H1; subst e1.
    rewrite nth_error_app2 in H2 by lia.
    rewrite Hlen, Nat.sub_diag in H2. cbn in H2. inversion H2; subst e2.
    rewrite <- !app_assoc, firstn_app, firstn_all, Nat.sub_diag.
    cbn [firstn]. rewrite app_nil_r.
    exists sel. split; assumption.
Qed.

Lemma followed_one (w : World) (e : dns.Msg * string) : followed w [e].
Proof.
  intros i e1 e2 H1 H2. destruct i as [|[|i]]; cbn in H2; discriminate.
Qed.

(** What [getNsRecords] hands over as the next server is the selection made
    with the draw it is at, and its count of draws goes up when it drew. *)
Lemma getNsRecords_selectedAt (w : World) (zone server : string) (s : State)
    (ns : list string) (next : string) (s' : State) :
  getNsRecords w zone server s = (Ret (ns, next, None), s') ->
  selectedAt w (draws s)
    (nextExchange w s (dns.Fqdn zone) dns.TypeNS server) next
  /\ draws s' =
     draws s
     + (if yields (nextExchange w s (dns.Fqdn zone) dns.TypeNS server)
        then 1 else 0).
Proof.
  intros Hg.
  destruct (getNsRecords_run w zone server s)
    as [[err [Hg' Hn]] | (r & Hx & Hr & Hne & Hg')]; rewrite Hg' in Hg.
  - assert (err = None) by congruence. subst err.
    rewrite (Hn eq_refl). cbn [selectedAt yields].
    inversion Hg; subst. cbn [sent draws]. split; [reflexivity | lia].
  - rewrite Hx. cbn [selectedAt yields]. rewrite Hr.
    inversion Hg; subst. cbn [drawn sent draws andb].
    split; [now repeat split|].
    destruct (collected r); [congruence | lia].
Qed.

Lemma walk_followed (w : World) (domain : string) (pieces : list string) :
  forall (acc nextNs : string) (s : State)
         (pre : list (dns.Msg * string)) (prev : dns.Msg * string),
    wire s = pre ++ [prev] ->
    followed w (wire s) ->
    draws s = drawsOf w 0 (wire s) ->
    selectedAt w (drawsOf w 0 pre)
      (Exchange w (List.length pre) (fst prev) (snd prev)) nextNs ->
    followed w (wire (snd (walk w domain pieces acc nextNs s))).
Proof.
  induction pieces as [|element pieces IH];
    intros acc nextNs s pre prev Hw Hf Hd Hsel; [exact Hf|].
  pose proof (walk_turn w domain element pieces acc nextNs s) as Ht.
  destruct (getNsRecords w (assemble element acc) nextNs
              (turnState s (assemble element acc) nextNs))
    as [[[[ns next] err]|msg|msg] s'] eqn:Hg; try never_exits Hg.
  destruct (getNsRecords_wire_after _ _ _ _ _ _ Hg) as [Hw' _].
  change (wire (turnState s (assemble element acc) nextNs))
    with (wire s) in Hw'.
  assert (Hf' : followed w (wire s')).
  { rewrite Hw', Hw. rewrite Hw in Hf.
    apply (followed_snoc w pre prev _ nextNs Hf Hsel). reflexivity. }
  destruct err as [e|]; rewrite Ht; [exact Hf'|].
  destruct (getNsRecords_selectedAt _ _ _ _ _ _ _ Hg) as [Hs' Hd'].
  change (draws (turnState s (assemble element acc) nextNs))
    with (draws s) in Hs', Hd'.
  eapply IH with (pre := wire s); [exact Hw' | exact Hf' | |].
  - cbn [addOut draws wire]. rewrite Hd', Hw', drawsOf_snoc, Hd.
    reflexivity.
  - rewrite <- Hd. exact Hs'.
Qed.

(** X10: in every run, the first exchange goes to the first server of the
    resolver configuration, and every later exchange goes to the very server
    [getNsRecords] selected at the level before: the nameserver at the drawn
    index (the next unused value of the random source, reduced modulo the
    length) of the list collected from the accepted response of the exchange
    before it, or the empty name when that exchange returned a nil
    response.  No exchange follows one that returned an error. *)
Theorem walker_follows_selection (w : World) :
  followed w (wire (snd (main w initial)))
  /\ (forall d conf server0 others,
        ArgRest w = [d] ->
        resolv_conf w = (Some conf, None) ->
        dns.Servers conf = server0 :: others ->
        hd_error (map snd (wire (snd (main w initial))))
        = Some (server0 ++ ":53")%string).
Proof.
  assert (Hnone : followed w []).
  { intros i e1 e2 H1. destruct i; discriminate. }
  split.
  - destruct (ArgRest w) as [|d [|d' rest]] eqn:Ha;
      try (unfold main; rewrite Ha; exact Hnone).
    destruct (resolv_conf w) as [[conf|] [e|]] eqn:Hc;
      try (unfold main; rewrite Ha, Hc; exact Hnone).
    destruct (dns.Servers conf) as [|server0 others] eqn:Hs.
    { unfold main. rewrite Ha, Hc, Hs. exact Hnone. }
    pose proof (main_root_turn w d conf server0 others Ha Hc Hs) as Ht.
    destruct (getNsRecords w "." server0 rootState)
      as [[[[ns next] err]|msg|msg] s'] eqn:Hg; try never_exits Hg.
    destruct (getNsRecords_wire_after _ _ _ _ _ _ Hg) as [Hw _].
    cbn [rootState addOut wire app] in Hw.
    assert (Hf : followed w (wire s')).
    { rewrite Hw. apply followed_one. }
    destruct err as [e|]; rewrite Ht; [exact Hf|].
    destruct (getNsRecords_selectedAt _ _ _ _ _ _ _ Hg) as [Hs' Hd'].
    eapply walk_followed with (pre := []); [exact Hw | exact Hf | |].
    + cbn [addOut draws wire]. rewrite Hd', Hw. cbn [drawsOf].
      change (draws rootState) with 0. unfold nextExchange.
      cbn [rootState addOut wire localm List.length fst snd].
      rewrite Nat.add_0_r. reflexivity.
    + exact Hs'.
  - intros d conf server0 others Ha Hc Hs.
    pose proof (main_root_turn w d conf server0 others Ha Hc Hs) as Ht.
    destruct (getNsRecords w "." server0 rootState)
      as [[[[ns next] err]|msg|msg] s'] eqn:Hg; try never_exits Hg.
    destruct (getNsRecords_wire_after _ _ _ _ _ _ Hg) as [Hw _].
    cbn [rootState addOut wire app] in Hw.
    destruct err as [e|]; rewrite Ht;
      [cbn [snd]; rewrite Hw; reflexivity|].
    assert (Hpre : forall pieces acc nextNs s e0 rest,
               wire s = e0 :: rest ->
               exists rest',
                 wire (snd (walk w d pieces acc nextNs s)) = e0 :: rest').
    { clear. induction pieces as [|element pieces IH];
        intros acc nextNs s e0 rest Hw; [now exists rest|].
      pose proof (walk_turn w d element pieces acc nextNs s) as Ht.
      destruct (getNsRecords w (assemble element acc) nextNs
                  (turnState s (assemble element acc) nextNs))
        as [[[[ns next] err]|msg|msg] s'] eqn:Hg; try never_exits Hg.
      destruct (getNsRecords_wire_after _ _ _ _ _ _ Hg) as [Hw' _].
      change (wire (turnState s (assemble element acc) nextNs))
        with (wire s) in Hw'.
      rewrite Hw in Hw'. cbn [app] in Hw'.
      destruct err as [e|]; rewrite Ht; [eexists; exact Hw'|].
      eapply IH. exact Hw'. }
    destruct (Hpre (rev (dns.SplitDomainName d)) "." next
                (addOut s' (map (fun n => listingLine (n =? next)%string n) ns))
                _ _ Hw) as [rest' ->].
    reflexivity.
Qed.

(** A run with three levels in which the selection is not the first of the
    collected nameservers: each query goes to the server at the drawn
    index. *)
Example walker_follows_selection_run :
  map snd (wire (snd (main (sampleWorld "example.com" netReferral
                              (fun n => match n with 1 => 0 | _ => 1 end))
                        initial)))
  = ["192.0.2.53:53"; "a.ns..:53"; "b.ns.com.:53"].
Proof. reflexivity. Qed.

(** ** The listings *)

Lemma getNsRecords_next_listed (w : World) (zone server : string) (s : State)
    (ns : list string) (next : string) (s' : State) :
  getNsRecords w zone server s = (Ret (ns, next, None), s') ->
  ns <> [] -> In next ns.
Proof.
  intros Hg Hne.
  destruct (getNsRecords_run w zone server s)
    as [[err [Hg' _]] | (r & _ & _ & Hc & Hg')]; rewrite Hg' in Hg.
  - assert (ns = []) by congruence. contradiction.
  - assert (E1 : ns = sortStrings (collected r)) by congruence.
    assert (E2 : next = nth (random w (draws s) mod List.length (collected r))
                          (collected r) "") by congruence.
    rewrite E1, E2. apply (proj1 (sortStrings_In _ _)).
    apply nth_mod_In, Hc.
Qed.

Lemma marked_line_listed (ns : list string) (next : string) :
  In next ns ->
  In (listingLine true next)
     (map (fun n => listingLine (n =? next)%string n) ns).
Proof.
  intros H. apply in_map_iff. exists next.
  now rewrite String.eqb_refl.
Qed.

(** X11: at a level of the loop whose zone is not the fully-qualified
    target, the listing marks with the arrow the nameservers equal to the
    selected one and gives the dash to the others; when nameservers were
    returned, at least one line carries the arrow. *)
Theorem walk_turn_marks_selected (w : World) (domain element : string)
    (pieces ns : list string) (acc nextNs next : string) (s s' : State) :
  getNsRecords w (assemble element acc) nextNs
    (turnState s (assemble element acc) nextNs)
  = (Ret (ns, next, None), s') ->
  dns.Fqdn domain <> assemble element acc ->
  walk w domain (element :: pieces) acc nextNs s =
  walk w domain pieces (assemble element acc) next
    (addOut s' (map (fun n => listingLine (n =? next)%string n) ns))
  /\ (ns <> [] ->
      In (listingLine true next)
         (map (fun n => listingLine (n =? next)%string n) ns)).
Proof.
  intros Hg Hz.
  pose proof (walk_turn w domain element pieces acc nextNs s) as Ht.
  rewrite Hg in Ht. split.
  - rewrite Ht. do 2 f_equal. apply map_ext. intros n.
    apply String.eqb_neq in Hz. rewrite Hz. cbn [negb].
    now rewrite Bool.andb_true_r.
  - intros Hne. apply marked_line_listed.
    apply (getNsRecords_next_listed _ _ _ _ _ _ _ Hg Hne).
Qed.

Lemma walk_turn_marks_selected_witness :
  walk (sampleWorld "example.com" netReferral (fun n => n)) "example.com"
    ["com"; "example"] "." "b.ns.." initial =
  walk (sampleWorld "example.com" netReferral (fun n => n)) "example.com"
    ["example"] "com." "b.ns.com."
    (addOut (drawn (sent (turnState initial "com." "b.ns..") "com."
                      dns.TypeNS "b.ns.."))
       [listingLine false "a.ns.com."; listingLine true "b.ns.com."])
  /\ (["a.ns.com."; "b.ns.com."] <> [] ->
      In (listingLine true "b.ns.com.")
         [listingLine false "a.ns.com."; listingLine true "b.ns.com."]).
Proof.
  apply (walk_turn_marks_selected
           (sampleWorld "example.com" netReferral (fun n => n)) "example.com"
           "com" ["example"] ["a.ns.com."; "b.ns.com."] "." "b.ns.." "b.ns.com."
           initial
           (drawn (sent (turnState initial "com." "b.ns..") "com."
                     dns.TypeNS "b.ns.."))).
  - reflexivity.
  - discriminate.
Defined.

Lemma walk_final_listing (w : World) (domain : string) (pieces : list string) :
  forall (acc nextNs : string) (s : State),
    pieces <> [] ->
    last (assembled acc pieces) "" = dns.Fqdn domain ->
    fst (walk w domain pieces acc nextNs s) = Ret tt ->
    exists s0 s1 nx ns next pre,
      stdout s0 = pre ++ [header (dns.Fqdn domain) nx]
      /\ getNsRecords w (dns.Fqdn domain) nx s0 = (Ret (ns, next, None), s1)
      /\ snd (walk w domain pieces acc nextNs s) =
         addOut s1 (map (listingLine false) ns).
Proof.
  induction pieces as [|element pieces IH]; intros acc nextNs s Hne Hlast Hret;
    [congruence|].
  pose proof (walk_turn w domain element pieces acc nextNs s) as Ht.
  destruct (getNsRecords w (assemble element acc) nextNs
              (turnState s (assemble element acc) nextNs))
    as [[[[ns next] [e|]]|msg|msg] s'] eqn:Hg; try never_exits Hg.
  - rewrite Ht in Hret. discriminate.
  - destruct pieces as [|element2 pieces].
    + cbn [assembled last] in Hlast.
      exists (turnState s (assemble element acc) nextNs), s', nextNs, ns, next,
             (stdout s ++ [nl]).
      rewrite <- Hlast. split; [reflexivity|]. split; [exact Hg|].
      rewrite Ht. cbn [walk]. unfold ret. cbn [snd]. f_equal.
      apply map_ext. intros n. rewrite Hlast, String.eqb_refl.
      cbn [negb]. now rewrite Bool.andb_false_r.
    + rewrite Ht in *. apply IH; [discriminate | exact Hlast | exact Hret].
Qed.

(** X12: in a run that ends without a fatal exit, for a target domain with
    at least one label and no empty label, the output ends with the header
    of the level of the fully-qualified target followed by one line for each
    nameserver the last [getNsRecords] call returned, every one of them with
    the dash: no nameserver is marked at the last level. *)
Theorem final_listing_unmarked (w : World) (d : string) :
  ArgRest w = [d] ->
  configured w ->
  Forall (fun l => l <> "") (dns.SplitDomainName d) ->
  dns.SplitDomainName d <> [] ->
  fst (main w initial) = Ret tt ->
  exists s0 s1 nx ns next pre,
    stdout s0 = pre ++ [header (dns.Fqdn d) nx]
    /\ getNsRecords w (dns.Fqdn d) nx s0 = (Ret (ns, next, None), s1)
    /\ snd (main w initial) = addOut s1 (map (listingLine false) ns)
    /\ stdout (snd (main w initial)) =
       pre ++ [header (dns.Fqdn d) nx] ++ map (listingLine false) ns.
Proof.
  intros Ha (conf & server0 & others & Hc & Hs) Hv Hne Hret.
  assert (Hlast : last (assembled "." (rev (dns.SplitDomainName d))) ""
                  = dns.Fqdn d).
  { rewrite <- zoneName_SplitDomainName, <- zoneSequence_last.
    rewrite <- (assembled_zoneSequence _ Hv).
    destruct (assembled "." (rev (dns.SplitDomainName d))) as [|z zs] eqn:E;
      [|reflexivity].
    apply (f_equal (@List.length string)) in E.
    rewrite assembled_length, length_rev in E.
    destruct (dns.SplitDomainName d); [congruence | discriminate]. }
  assert (Hne' : rev (dns.SplitDomainName d) <> []).
  { intros E. apply Hne. apply (f_equal (@rev string)) in E.
    now rewrite rev_involutive in E. }
  pose proof (main_root_turn w d conf server0 others Ha Hc Hs) as Ht.
  destruct (getNsRecords w "." server0 rootState)
    as [[[[ns0 next0] [e|]]|msg|msg] s'] eqn:Hg; try never_exits Hg.
  - rewrite Ht in Hret. discriminate.
  - rewrite Ht in *.
    destruct (walk_final_listing w d _ "." next0 _ Hne' Hlast Hret)
      as (s0 & s1 & nx & ns & next & pre & Hs0 & Hg1 & Hfin).
    exists s0, s1, nx, ns, next, pre.
    split; [exact Hs0|]. split; [exact Hg1|]. split; [exact Hfin|].
    rewrite Hfin. cbn [addOut stdout].
    destruct (getNsRecords_wire_after _ _ _ _ _ _ Hg1) as [_ Ho].
    rewrite Ho, Hs0, <- app_assoc. reflexivity.
Qed.

Lemma final_listing_unmarked_witness :
  exists s0 s1 nx ns next pre,
    stdout s0 = pre ++ [header (dns.Fqdn "example.com") nx]
    /\ getNsRecords (sampleWorld "example.com" netReferral (fun n => n))
         (dns.Fqdn "example.com") nx s0 = (Ret (ns, next, None), s1)
    /\ snd (main (sampleWorld "example.com" netReferral (fun n => n)) initial)
       = addOut s1 (map (listingLine false) ns)
    /\ stdout (snd (main (sampleWorld "example.com" netReferral (fun n => n))
                      initial))
       = pre ++ [header (dns.Fqdn "example.com") nx]
         ++ map (listingLine false) ns.
Proof.
  apply (final_listing_unmarked
           (sampleWorld "example.com" netReferral (fun n => n)) "example.com").
  - reflexivity.
  - exists (dns.mkClientConfig ["192.0.2.53"]), "192.0.2.53", []. now split.
  - repeat constructor; discriminate.
  - discriminate.
  - reflexivity.
Defined.

(** X13: for a target without labels (the root), the run is the query for
    the root zone alone; its listing still marks the selected server with
    the arrow, although no query follows. *)
Theorem main_root_target (w : World) (d : string) (conf : dns.ClientConfig)
    (server0 : string) (others ns : list string) (next : string) (s' : State) :
  ArgRest w = [d] ->
  resolv_conf w = (Some conf, None) ->
  dns.Servers conf = server0 :: others ->
  dns.SplitDomainName d = [] ->
  getNsRecords w "." server0 rootState = (Ret (ns, next, None), s') ->
  main w initial =
  (Ret tt, addOut s' (map (fun n => listingLine (n =? next)%string n) ns))
  /\ queried (snd (main w initial)) = ["."]
  /\ (ns <> [] ->
      In (listingLine true next)
         (map (fun n => listingLine (n =? next)%string n) ns)).
Proof.
  intros Ha Hc Hs Hd Hg.
  pose proof (main_root_turn w d conf server0 others Ha Hc Hs) as Ht.
  rewrite Hg, Hd in Ht. cbn [rev walk] in Ht. unfold ret in Ht.
  split; [exact Ht|]. split.
  - rewrite Ht. cbn [snd]. unfold queried. cbn [addOut wire].
    destruct (getNsRecords_wire_after _ _ _ _ _ _ Hg) as [Hw _].
    rewrite Hw. reflexivity.
  - intros Hne. apply marked_line_listed.
    apply (getNsRecords_next_listed _ _ _ _ _ _ _ Hg Hne).
Qed.

Lemma main_root_target_witness :
  main (sampleWorld "." netReferral (fun n => n)) initial =
  (Ret tt,
   addOut (drawn (sent rootState "." dns.TypeNS "192.0.2.53"))
     [listingLine false "a.ns.."; listingLine true "b.ns.."])
  /\ queried (snd (main (sampleWorld "." netReferral (fun n => n)) initial))
     = ["."]
  /\ (["a.ns.."; "b.ns.."] <> [] ->
      In (listingLine true "b.ns..")
         [listingLine false "a.ns.."; listingLine true "b.ns.."]).
Proof.
  apply (main_root_target
           (sampleWorld "." netReferral (fun n => n)) "."
           (dns.mkClientConfig ["192.0.2.53"]) "192.0.2.53" []
           ["a.ns.."; "b.ns.."] "b.ns.."
           (drawn (sent rootState "." dns.TypeNS "192.0.2.53")));
    reflexivity.
Defined.

(** ** What of a response matters *)

(** X14: the result of [getNsRecords] for a response depends on the
    response only through whether its status is accepted (name-error or
    success) and through the targets of the NS records of its answer and
    authority sections: records of other types, the additional section, the
    other fields of the header, the exact status among the accepted or
    among the rejected ones, and the server asked make no difference. *)
Theorem getNsRecords_ns_targets_only (w1 w2 : World)
    (zone server1 server2 : string) (s1 s2 : State) (r1 r2 : dns.Msg) :
  nextExchange w1 s1 (dns.Fqdn zone) dns.TypeNS server1 = (Some r1, None) ->
  nextExchange w2 s2 (dns.Fqdn zone) dns.TypeNS server2 = (Some r2, None) ->
  rcodeAccepted r1 = rcodeAccepted r2 ->
  nsTargets (dns.Answer r1) = nsTargets (dns.Answer r2) ->
  nsTargets (dns.Ns r1) = nsTargets (dns.Ns r2) ->
  random w1 (draws s1) = random w2 (draws s2) ->
  fst (getNsRecords w1 zone server1 s1) = fst (getNsRecords w2 zone server2 s2).
Proof.
  intros H1 H2 Hrc Ha Hn Hr.
  assert (Hc : collected r1 = collected r2).
  { unfold collected. now rewrite Ha, Hn. }
  rewrite !getNsRecords_eq. cbv zeta. rewrite !localQuery_eq. cbn [fst].
  rewrite H1, H2, Hrc.
  destruct (rcodeAccepted r2); [|reflexivity].
  rewrite Hc, Hr.
  destruct (collected r2); reflexivity.
Qed.

Lemma getNsRecords_ns_targets_only_witness :
  fst (getNsRecords
         (sampleWorld "com" (netConst (Some replyReferral) None) (fun n => 3))
         "com" "a.root." initial)
  = fst (getNsRecords
           (sampleWorld "com"
              (netConst
                 (Some (dns.mkMsg false dns.RcodeSuccess []
                          [] [rrNS "com." "b.gtld."; rrNS "com." "a.gtld."]
                          [rrA "a.gtld." "198.51.100.9"]))
                 None)
              (fun n => 3))
           "com" "b.root." rootState).
Proof.
  apply (getNsRecords_ns_targets_only
           (sampleWorld "com" (netConst (Some replyReferral) None) (fun n => 3))
           (sampleWorld "com"
              (netConst
                 (Some (dns.mkMsg false dns.RcodeSuccess []
                          [] [rrNS "com." "b.gtld."; rrNS "com." "a.gtld."]
                          [rrA "a.gtld." "198.51.100.9"]))
                 None)
              (fun n => 3))
           "com" "a.root." "b.root." initial rootState replyReferral
           (dns.mkMsg false dns.RcodeSuccess []
              [] [rrNS "com." "b.gtld."; rrNS "com." "a.gtld."]
              [rrA "a.gtld." "198.51.100.9"]));
    reflexivity.
Defined.

(** Two responses with the same NS targets, one with a rejected status
    (server failure, refused): the same error for both. *)
Example getNsRecords_rejected_statuses :
  fst (getNsRecords
         (sampleWorld "com"
            (netConst (Some (reply 2 [rrNS "com." "a.gtld."] [])) None)
            (fun n => n))
         "com" "a.root." initial)
  = fst (getNsRecords
           (sampleWorld "com"
              (netConst (Some (reply 5 [rrNS "com." "a.gtld."] [])) None)
              (fun n => n))
           "com" "a.root." initial).
Proof. reflexivity. Qed.
